(** * Academic Submission App: persisted state, favorites and session store

    A shallow embedding of [src/utils/storage.js], [src/utils/api.js],
    [src/context/AppContext.js] and the logout handler of the settings
    screen, with the properties of the specification stated over it, and
    of the handlers of the login, signup and favorites screens that call
    the storage module.

    The JavaScript is modelled as it is written:
    - a JS value that JSON can carry is a [jsval]; [undefined] is the
      [None] of [option jsval];
    - an [async] function is a computation over the [World] (the
      AsyncStorage disk plus the faults the platform is about to raise)
      that completes normally or throws;
    - [try { .. } catch (error) { .. }] is [try_catch];
    - [JSON.stringify] and [JSON.parse] are the platform's: the storage
      module is written over any codec, and [Module JSON] gives a concrete
      one for running the model on real strings.
    [console.error] only writes to the developer console and is left out. *)

From Stdlib Require Import ZArith Ascii DecimalPos DecimalZ.
From stdpp Require Import gmap strings list.

Set Warnings "-register-all".
Local Open Scope string_scope.
Local Open Scope Z_scope.

(** ** JavaScript values *)

Inductive jsval : Type :=
| VNull
| VBool (b : bool)
| VNum (n : Z)
| VStr (s : string)
| VArr (items : list jsval)
| VObj (fields : list (string * jsval)).

(** Nested induction principle: the generated one says nothing about the
    elements of an array or the fields of an object. *)
Section jsval_nested_ind.
Variable P : jsval -> Prop.
Hypothesis Hnull : P VNull.
Hypothesis Hbool : forall b, P (VBool b).
Hypothesis Hnum : forall n, P (VNum n).
Hypothesis Hstr : forall s, P (VStr s).
Hypothesis Harr : forall items, Forall P items -> P (VArr items).
Hypothesis Hobj : forall fields, Forall (fun kv => P (snd kv)) fields -> P (VObj fields).

Fixpoint jsval_nested_ind (v : jsval) : P v :=
  match v with
  | VNull => Hnull
  | VBool b => Hbool b
  | VNum n => Hnum n
  | VStr s => Hstr s
  | VArr items =>
      Harr items
        ((fix go (l : list jsval) : Forall P l :=
            match l with
            | [] => Forall_nil_2 P
            | x :: xs => Forall_cons_2 P x xs (jsval_nested_ind x) (go xs)
            end) items)
  | VObj fields =>
      Hobj fields
        ((fix go (l : list (string * jsval)) : Forall (fun kv => P (snd kv)) l :=
            match l with
            | [] => Forall_nil_2 _
            | kv :: xs => Forall_cons_2 _ kv xs (jsval_nested_ind (snd kv)) (go xs)
            end) fields)
  end.
End jsval_nested_ind.

(** [ToBoolean]: what [v ? a : b], [!v] and [v && ..] test. *)
Definition truthy (v : jsval) : bool :=
  match v with
  | VNull => false
  | VBool b => b
  | VNum n => negb (n =? 0)
  | VStr s => negb (String.eqb s "")
  | VArr _ | VObj _ => true
  end.

(** Truthiness of a possibly [undefined] value. *)
Definition truthy_opt (v : option jsval) : bool :=
  match v with
  | None => false
  | Some v => truthy v
  end.

(** Truthiness of what [AsyncStorage.getItem] resolves to: a string or
    [null]. *)
Definition truthy_item (s : option string) : bool :=
  match s with
  | None => false
  | Some s => negb (String.eqb s "")
  end.

(** [a === b] where at least one side was freshly produced by
    [JSON.parse]: primitives compare by value, and an array or an object
    is never the same reference as anything on the other side. *)
Definition strict_eq (a b : option jsval) : bool :=
  match a, b with
  | None, None => true
  | Some VNull, Some VNull => true
  | Some (VBool x), Some (VBool y) => Bool.eqb x y
  | Some (VNum x), Some (VNum y) => x =? y
  | Some (VStr x), Some (VStr y) => String.eqb x y
  | _, _ => false
  end.

(** Own property of an object. An object is the list of its bindings in
    source order; a later binding of a key overrides an earlier one, as in
    an object literal and in [JSON.parse]. *)
Fixpoint assoc (k : string) (fields : list (string * jsval)) : option jsval :=
  match fields with
  | [] => None
  | (k', v) :: rest =>
      match assoc k rest with
      | Some v' => Some v'
      | None => if String.eqb k k' then Some v else None
      end
  end.

(** ** Exceptions, completions and async computations *)

Inductive exn : Type :=
| StorageError (msg : string)
| SyntaxError (msg : string)
| TypeError (msg : string).

(** [error.message] *)
Definition message (e : exn) : string :=
  match e with
  | StorageError msg | SyntaxError msg | TypeError msg => msg
  end.

Inductive completion (A : Type) : Type :=
| Normal (a : A)
| Throw (e : exn).
Arguments Normal {A} a.
Arguments Throw {A} e.

(** The device: the AsyncStorage key-value disk, and the outcome the
    platform has in store for each of the coming AsyncStorage calls
    ([Some msg]: the call rejects with [Error(msg)]; [None], or a tape that
    ran out: the call goes through). *)
Record World : Type := mkWorld {
  disk : gmap string string;
  faults : list (option string)
}.

Definition Async (A : Type) : Type := World -> completion A * World.

Definition ret {A} (a : A) : Async A := fun w => (Normal a, w).

Definition throw {A} (e : exn) : Async A := fun w => (Throw e, w).

Definition bind {A B} (m : Async A) (k : A -> Async B) : Async B :=
  fun w =>
    match m w with
    | (Normal a, w') => k a w'
    | (Throw e, w') => (Throw e, w')
    end.

Definition try_catch {A} (body : Async A) (handler : exn -> Async A) : Async A :=
  fun w =>
    match body w with
    | (Normal a, w') => (Normal a, w')
    | (Throw e, w') => handler e w'
    end.

Notation "'await' x <- m ; k" := (bind m (fun x => k))
  (at level 10, x name, m at level 100, k at level 200).

(** The fault the next AsyncStorage call will meet, and the world once
    that call has been made. *)
Definition fault (w : World) : option string :=
  match faults w with
  | Some msg :: _ => Some msg
  | _ => None
  end.

Definition tick (w : World) : World :=
  mkWorld (disk w) (tail (faults w)).

Definition commit (d : gmap string string) (w : World) : World :=
  mkWorld d (tail (faults w)).

(** ** AsyncStorage *)

Module AsyncStorage.

Definition getItem (key : string) : Async (option string) :=
  fun w =>
    match fault w with
    | Some msg => (Throw (StorageError msg), tick w)
    | None => (Normal (disk w !! key), tick w)
    end.

Definition setItem (key value : string) : Async unit :=
  fun w =>
    match fault w with
    | Some msg => (Throw (StorageError msg), tick w)
    | None => (Normal tt, commit (<[key := value]> (disk w)) w)
    end.

Definition multiRemove (keys : list string) : Async unit :=
  fun w =>
    match fault w with
    | Some msg => (Throw (StorageError msg), tick w)
    | None => (Normal tt, commit (foldr delete (disk w) keys) w)
    end.

End AsyncStorage.

(** ** Member access and array methods *)

(** [v.k]: a [TypeError] on [null], an own property on an object, and
    [undefined] on every other value for the keys this program reads
    ([id], [email], [password]). *)
Definition member (v : jsval) (k : string) : Async (option jsval) :=
  match v with
  | VNull => throw (TypeError "Cannot read property of null")
  | VObj fields => ret (assoc k fields)
  | _ => ret None
  end.

(** The receiver of an array method: calling [find], [filter] or [some]
    on [null] or on a value that has no such method is a [TypeError]. *)
Definition as_array (v : jsval) : Async (list jsval) :=
  match v with
  | VArr items => ret items
  | VNull => throw (TypeError "Cannot read property of null")
  | _ => throw (TypeError "not a function")
  end.

Fixpoint Array_find (f : jsval -> Async bool) (l : list jsval) : Async (option jsval) :=
  match l with
  | [] => ret None
  | item :: rest =>
      await b <- f item;
      if b then ret (Some item) else Array_find f rest
  end.

Fixpoint Array_filter (f : jsval -> Async bool) (l : list jsval) : Async (list jsval) :=
  match l with
  | [] => ret []
  | item :: rest =>
      await b <- f item;
      await rest' <- Array_filter f rest;
      ret (if b then item :: rest' else rest')
  end.

Fixpoint Array_some (f : jsval -> Async bool) (l : list jsval) : Async bool :=
  match l with
  | [] => ret false
  | item :: rest =>
      await b <- f item;
      if b then ret true else Array_some f rest
  end.

(** [favorites.push(post)] on the array the caller alone holds. *)
Definition Array_push (l : list jsval) (x : jsval) : list jsval := l ++ [x].

(** ** Result objects: [{ success: true, .. }] or [{ success: false, error }] *)

Inductive result (A : Type) : Type :=
| Success (payload : A)
| Failure (error : string).
Arguments Success {A} payload.
Arguments Failure {A} error.

Definition success {A} (r : result A) : bool :=
  match r with
  | Success _ => true
  | Failure _ => false
  end.

(** ** A concrete JSON codec

    The compact text [JSON.stringify] produces and a parser for JSON
    text, over the values of the model: numbers are integers and strings
    are byte strings, so a fraction, an exponent or a [\u] escape above
    [00ff] is refused as a syntax error. *)

Module JSON.

Definition dquote : ascii := ascii_of_nat 34.
Definition backslash : ascii := ascii_of_nat 92.

Definition is_ws (c : ascii) : bool :=
  Ascii.eqb c " " || Ascii.eqb c (ascii_of_nat 9)
  || Ascii.eqb c (ascii_of_nat 10) || Ascii.eqb c (ascii_of_nat 13).

Definition is_control (c : ascii) : bool := (N_of_ascii c <? 32)%N.

(** *** Printing *)

Definition hex_digit (n : N) : ascii :=
  if (n <? 10)%N then ascii_of_N (48 + n) else ascii_of_N (87 + n).

Definition escape_char (c : ascii) (k : string) : string :=
  if Ascii.eqb c dquote then String backslash (String dquote k)
  else if Ascii.eqb c backslash then String backslash (String backslash k)
  else if Ascii.eqb c (ascii_of_nat 8) then String backslash (String "b" k)
  else if Ascii.eqb c (ascii_of_nat 12) then String backslash (String "f" k)
  else if Ascii.eqb c (ascii_of_nat 10) then String backslash (String "n" k)
  else if Ascii.eqb c (ascii_of_nat 13) then String backslash (String "r" k)
  else if Ascii.eqb c (ascii_of_nat 9) then String backslash (String "t" k)
  else if is_control c then
    String backslash
      (String "u" (String "0" (String "0"
         (String (hex_digit (N_of_ascii c / 16))
            (String (hex_digit (N_of_ascii c mod 16)) k)))))
  else String c k.

Fixpoint escape (s k : string) : string :=
  match s with
  | EmptyString => k
  | String c rest => escape_char c (escape rest k)
  end.

Definition print_string (s k : string) : string :=
  String dquote (escape s (String dquote k)).

Fixpoint print_uint (d : Decimal.uint) (k : string) : string :=
  match d with
  | Decimal.Nil => k
  | Decimal.D0 d => String "0" (print_uint d k)
  | Decimal.D1 d => String "1" (print_uint d k)
  | Decimal.D2 d => String "2" (print_uint d k)
  | Decimal.D3 d => String "3" (print_uint d k)
  | Decimal.D4 d => String "4" (print_uint d k)
  | Decimal.D5 d => String "5" (print_uint d k)
  | Decimal.D6 d => String "6" (print_uint d k)
  | Decimal.D7 d => String "7" (print_uint d k)
  | Decimal.D8 d => String "8" (print_uint d k)
  | Decimal.D9 d => String "9" (print_uint d k)
  end.

Definition print_Z (n : Z) (k : string) : string :=
  match Z.to_int n with
  | Decimal.Pos d => print_uint d k
  | Decimal.Neg d => String "-" (print_uint d k)
  end.

Fixpoint prepend (word k : string) : string :=
  match word with
  | EmptyString => k
  | String c word' => String c (prepend word' k)
  end.

(** [print v k] is the text of [v] followed by [k]. *)
Fixpoint print (v : jsval) (k : string) : string :=
  match v with
  | VNull => prepend "null" k
  | VBool true => prepend "true" k
  | VBool false => prepend "false" k
  | VNum n => print_Z n k
  | VStr s => print_string s k
  | VArr [] => prepend "[]" k
  | VArr (x :: rest) =>
      String "["
        (print x
           ((fix elems (l : list jsval) : string :=
               match l with
               | [] => String "]" k
               | y :: l' => String "," (print y (elems l'))
               end) rest))
  | VObj [] => prepend "{}" k
  | VObj ((key, x) :: rest) =>
      String "{"
        (print_string key
           (String ":"
              (print x
                 ((fix members (l : list (string * jsval)) : string :=
                     match l with
                     | [] => String "}" k
                     | (key', y) :: l' =>
                         String ","
                           (print_string key' (String ":" (print y (members l'))))
                     end) rest))))
  end.

Definition print_elems (l : list jsval) (k : string) : string :=
  (fix elems (l : list jsval) : string :=
     match l with
     | [] => String "]" k
     | y :: l' => String "," (print y (elems l'))
     end) l.

Definition print_members (l : list (string * jsval)) (k : string) : string :=
  (fix members (l : list (string * jsval)) : string :=
     match l with
     | [] => String "}" k
     | (key', y) :: l' =>
         String "," (print_string key' (String ":" (print y (members l'))))
     end) l.

Definition stringify (v : jsval) : string := print v "".

(** *** Parsing *)

Fixpoint skip_ws (s : string) : string :=
  match s with
  | String c rest => if is_ws c then skip_ws rest else s
  | EmptyString => EmptyString
  end.

Definition hex_value (c : ascii) : option N :=
  let n := N_of_ascii c in
  if (48 <=? n)%N && (n <=? 57)%N then Some (n - 48)%N
  else if (97 <=? n)%N && (n <=? 102)%N then Some (n - 87)%N
  else if (65 <=? n)%N && (n <=? 70)%N then Some (n - 55)%N
  else None.

(** The character a [\u] escape with the four given hex digits names,
    when it is a single byte. *)
Definition unicode_escape (h1 h2 h3 h4 : ascii) : option ascii :=
  match hex_value h1, hex_value h2, hex_value h3, hex_value h4 with
  | Some 0%N, Some 0%N, Some a, Some b => Some (ascii_of_N (16 * a + b))
  | _, _, _, _ => None
  end.

Definition simple_escape (e : ascii) : option ascii :=
  if Ascii.eqb e dquote then Some dquote
  else if Ascii.eqb e backslash then Some backslash
  else if Ascii.eqb e "/" then Some "/"%char
  else if Ascii.eqb e "b" then Some (ascii_of_nat 8)
  else if Ascii.eqb e "f" then Some (ascii_of_nat 12)
  else if Ascii.eqb e "n" then Some (ascii_of_nat 10)
  else if Ascii.eqb e "r" then Some (ascii_of_nat 13)
  else if Ascii.eqb e "t" then Some (ascii_of_nat 9)
  else None.

Definition cons_char (c : option ascii) (r : option (string * string))
  : option (string * string) :=
  match c, r with
  | Some c, Some (s, rest) => Some (String c s, rest)
  | _, _ => None
  end.

(** The characters of a string literal after its opening quote, up to
    and including the closing quote. *)
Fixpoint parse_chars (s : string) : option (string * string) :=
  match s with
  | EmptyString => None
  | String c rest =>
      if Ascii.eqb c dquote then Some (EmptyString, rest)
      else if Ascii.eqb c backslash then
        match rest with
        | String e rest' =>
            if Ascii.eqb e "u" then
              match rest' with
              | String h1 (String h2 (String h3 (String h4 rest''))) =>
                  cons_char (unicode_escape h1 h2 h3 h4) (parse_chars rest'')
              | _ => None
              end
            else cons_char (simple_escape e) (parse_chars rest')
        | EmptyString => None
        end
      else if is_control c then None
      else cons_char (Some c) (parse_chars rest)
  end.

Definition digit_of (c : ascii) : option (Decimal.uint -> Decimal.uint) :=
  if Ascii.eqb c "0" then Some Decimal.D0
  else if Ascii.eqb c "1" then Some Decimal.D1
  else if Ascii.eqb c "2" then Some Decimal.D2
  else if Ascii.eqb c "3" then Some Decimal.D3
  else if Ascii.eqb c "4" then Some Decimal.D4
  else if Ascii.eqb c "5" then Some Decimal.D5
  else if Ascii.eqb c "6" then Some Decimal.D6
  else if Ascii.eqb c "7" then Some Decimal.D7
  else if Ascii.eqb c "8" then Some Decimal.D8
  else if Ascii.eqb c "9" then Some Decimal.D9
  else None.

(** The longest run of digits at the head of [s], and what follows. *)
Fixpoint scan_uint (s : string) : Decimal.uint * string :=
  match s with
  | EmptyString => (Decimal.Nil, EmptyString)
  | String c rest =>
      match digit_of c with
      | Some digit => let (d, rest') := scan_uint rest in (digit d, rest')
      | None => (Decimal.Nil, s)
      end
  end.

(** No digits at all, and a leading zero before other digits, are not
    numbers. *)
Definition canonical (d : Decimal.uint) : bool :=
  Decimal.uint_beq (Decimal.unorm d) d.

Definition parse_number (s : string) : option (jsval * string) :=
  match s with
  | String c rest =>
      if Ascii.eqb c "-" then
        let (d, rest') := scan_uint rest in
        if canonical d then Some (VNum (Z.of_int (Decimal.Neg d)), rest') else None
      else
        let (d, rest') := scan_uint s in
        if canonical d then Some (VNum (Z.of_int (Decimal.Pos d)), rest') else None
  | EmptyString => None
  end.

Fixpoint strip_prefix (p s : string) : option string :=
  match p, s with
  | EmptyString, _ => Some s
  | String a p', String b s' => if Ascii.eqb a b then strip_prefix p' s' else None
  | String _ _, EmptyString => None
  end.

Definition parse_literal (word : string) (v : jsval) (s : string)
  : option (jsval * string) :=
  match strip_prefix word s with
  | Some rest => Some (v, rest)
  | None => None
  end.

(** A member's key and the colon after it. *)
Definition parse_key (s : string) : option (string * string) :=
  match skip_ws s with
  | String c rest =>
      if Ascii.eqb c dquote then
        match parse_chars rest with
        | Some (key, rest') =>
            match skip_ws rest' with
            | String c' rest'' => if Ascii.eqb c' ":" then Some (key, rest'') else None
            | EmptyString => None
            end
        | None => None
        end
      else None
  | EmptyString => None
  end.

Fixpoint parse_value (fuel : nat) (s : string) : option (jsval * string) :=
  match fuel with
  | O => None
  | S fuel =>
      match skip_ws s with
      | EmptyString => None
      | String c rest =>
          if Ascii.eqb c "[" then
            match skip_ws rest with
            | String c' rest' =>
                if Ascii.eqb c' "]" then Some (VArr [], rest')
                else
                  match parse_value fuel rest with
                  | Some (x, rest1) =>
                      match parse_elems fuel rest1 with
                      | Some (xs, rest2) => Some (VArr (x :: xs), rest2)
                      | None => None
                      end
                  | None => None
                  end
            | EmptyString => None
            end
          else if Ascii.eqb c "{" then
            match skip_ws rest with
            | String c' rest' =>
                if Ascii.eqb c' "}" then Some (VObj [], rest')
                else
                  match parse_key rest with
                  | Some (key, rest1) =>
                      match parse_value fuel rest1 with
                      | Some (x, rest2) =>
                          match parse_members fuel rest2 with
                          | Some (xs, rest3) => Some (VObj ((key, x) :: xs), rest3)
                          | None => None
                          end
                      | None => None
                      end
                  | None => None
                  end
            | EmptyString => None
            end
          else if Ascii.eqb c dquote then
            match parse_chars rest with
            | Some (str, rest') => Some (VStr str, rest')
            | None => None
            end
          else if Ascii.eqb c "n" then parse_literal "ull" VNull rest
          else if Ascii.eqb c "t" then parse_literal "rue" (VBool true) rest
          else if Ascii.eqb c "f" then parse_literal "alse" (VBool false) rest
          else parse_number (String c rest)
      end
  end
with parse_elems (fuel : nat) (s : string) : option (list jsval * string) :=
  match fuel with
  | O => None
  | S fuel =>
      match skip_ws s with
      | String c rest =>
          if Ascii.eqb c "]" then Some ([], rest)
          else if Ascii.eqb c "," then
            match parse_value fuel rest with
            | Some (x, rest1) =>
                match parse_elems fuel rest1 with
                | Some (xs, rest2) => Some (x :: xs, rest2)
                | None => None
                end
            | None => None
            end
          else None
      | EmptyString => None
      end
  end
with parse_members (fuel : nat) (s : string) : option (list (string * jsval) * string) :=
  match fuel with
  | O => None
  | S fuel =>
      match skip_ws s with
      | String c rest =>
          if Ascii.eqb c "}" then Some ([], rest)
          else if Ascii.eqb c "," then
            match parse_key rest with
            | Some (key, rest1) =>
                match parse_value fuel rest1 with
                | Some (x, rest2) =>
                    match parse_members fuel rest2 with
                    | Some (xs, rest3) => Some ((key, x) :: xs, rest3)
                    | None => None
                    end
                | None => None
                end
            | None => None
            end
          else None
      | EmptyString => None
      end
  end.

(** [JSON.parse]: one value, with nothing but white space after it. *)
Definition parse (s : string) : option jsval :=
  match parse_value (2 * String.length s + 1) s with
  | Some (v, rest) =>
      match skip_ws rest with
      | EmptyString => Some v
      | String _ _ => None
      end
  | None => None
  end.

(** The fuel the parser needs to read [v] back. *)
Fixpoint size (v : jsval) : nat :=
  match v with
  | VArr items =>
      S ((fix size_items (l : list jsval) : nat :=
            match l with
            | [] => 1
            | x :: l' => S (size x + size_items l')
            end) items)
  | VObj fields =>
      S ((fix size_fields (l : list (string * jsval)) : nat :=
            match l with
            | [] => 1
            | (_, x) :: l' => S (size x + size_fields l')
            end) fields)
  | _ => 1
  end%nat.

Definition size_items (l : list jsval) : nat :=
  (fix size_items (l : list jsval) : nat :=
     match l with
     | [] => 1
     | x :: l' => S (size x + size_items l')
     end)%nat l.

Definition size_fields (l : list (string * jsval)) : nat :=
  (fix size_fields (l : list (string * jsval)) : nat :=
     match l with
     | [] => 1
     | (_, x) :: l' => S (size x + size_fields l')
     end)%nat l.

(** *** Predicates of the round-trip proof *)

(** What may follow a number: anything but a digit. *)
Definition follow_ok (k : string) : Prop :=
  match k with
  | String c _ => digit_of c = None
  | EmptyString => True
  end.

(** A number's text starts with a sign or a digit. *)
Definition numeric (c : ascii) : bool :=
  Ascii.eqb c "-" || match digit_of c with Some _ => true | None => false end.

(** What the text of a value starts with. *)
Definition starts_value (c : ascii) : bool :=
  numeric c || Ascii.eqb c "[" || Ascii.eqb c "{" || Ascii.eqb c dquote
  || Ascii.eqb c "n" || Ascii.eqb c "t" || Ascii.eqb c "f".

(** Reading back: with enough fuel, the parser returns [v] and what
    followed its text. *)
Definition reads_back (v : jsval) : Prop :=
  forall fuel k,
    (size v <= fuel)%nat -> follow_ok k ->
    parse_value fuel (print v k) = Some (v, k).

(** The text of [v] is long enough for the fuel [parse] grants. *)
Definition pays (v : jsval) : Prop :=
  forall k, (size v + 2 * String.length k <= 2 * String.length (print v k) + 1)%nat.

End JSON.

(** ** [src/utils/api.js]: the static content provider *)

(** The object literal [{ id, userId, title, body }]. *)
Definition post_object (id userId : Z) (title body : string) : jsval :=
  VObj [("id", VNum id); ("userId", VNum userId); ("title", VStr title); ("body", VStr body)].

Definition samplePosts : list jsval := [
  post_object 1 1
    "Introduction to Machine Learning"
    "Machine learning is a subset of artificial intelligence that enables systems to learn and improve from experience without being explicitly programmed. It focuses on developing algorithms that can access data and use it to learn for themselves.";
  post_object 2 2
    "The Future of Renewable Energy"
    "Renewable energy sources like solar, wind, and hydroelectric power are becoming increasingly important as we seek to reduce our carbon footprint and combat climate change. The transition to clean energy is essential for a sustainable future.";
  post_object 3 3
    "Understanding Blockchain Technology"
    "Blockchain is a distributed ledger technology that records transactions across many computers. Its key features include decentralization, transparency, and security. It has applications beyond cryptocurrency in supply chain, voting, and more.";
  post_object 4 4
    "The Rise of Electric Vehicles"
    "Electric vehicles are revolutionizing the automotive industry with their environmental benefits and advancing technology. Major automakers are investing heavily in EV development, making electric cars more accessible to consumers worldwide.";
  post_object 5 5
    "Web Development Best Practices"
    "Modern web development requires understanding of HTML, CSS, JavaScript, and various frameworks. Following best practices like responsive design, accessibility, and performance optimization creates better user experiences.";
  post_object 6 6
    "Cybersecurity in the Digital Age"
    "With increasing digitalization, cybersecurity has become crucial for individuals and organizations. Understanding common threats like phishing, malware, and ransomware helps in implementing effective protection measures.";
  post_object 7 1
    "Cloud Computing Fundamentals"
    "Cloud computing provides on-demand computing resources over the internet. Services like storage, processing power, and applications are delivered through cloud platforms, enabling scalable and cost-effective solutions.";
  post_object 8 2
    "Data Science and Analytics"
    "Data science involves extracting insights from data using various techniques including statistics, machine learning, and programming. It helps organizations make data-driven decisions and solve complex problems.";
  post_object 9 3
    "Mobile App Development Trends"
    "Mobile app development continues to evolve with new technologies and user expectations. Key trends include cross-platform development, AI integration, and focus on user experience and security.";
  post_object 10 4
    "Artificial Intelligence in Healthcare"
    "AI is transforming healthcare through improved diagnostics, personalized treatment plans, and drug discovery. Machine learning algorithms can analyze medical images, predict patient outcomes, and streamline administrative tasks.";
  post_object 11 5
    "The Internet of Things Explained"
    "IoT connects everyday devices to the internet, enabling smart homes, cities, and industries. Sensors and actuators collect and exchange data, creating interconnected systems that improve efficiency and convenience.";
  post_object 12 6
    "Quantum Computing: A New Era"
    "Quantum computing harnesses quantum mechanics to perform computations exponentially faster than classical computers. It has potential applications in cryptography, drug discovery, and solving complex optimization problems.";
  post_object 13 1
    "Software Engineering Principles"
    "Good software engineering involves writing maintainable, scalable, and efficient code. Key principles include SOLID design patterns, test-driven development, and continuous integration and deployment.";
  post_object 14 2
    "Network Security Essentials"
    "Network security protects underlying IT infrastructure from unauthorized access. Essential measures include firewalls, intrusion detection systems, encryption, and regular security audits to identify vulnerabilities.";
  post_object 15 3
    "The Evolution of Social Media"
    "Social media has transformed how we communicate and share information. Platforms continue to evolve with new features, algorithms, and privacy concerns shaping user behavior and digital marketing strategies.";
  post_object 16 4
    "Database Management Systems"
    "Database management systems store, organize, and retrieve data efficiently. Understanding SQL, NoSQL, and database design principles is essential for building robust applications.";
  post_object 17 5
    "DevOps and Agile Methodologies"
    "DevOps combines development and operations to deliver software faster and more reliably. Agile methodologies promote iterative development, collaboration, and adaptability in project management.";
  post_object 18 6
    "Computer Networks Basics"
    "Computer networks enable devices to communicate and share resources. Understanding protocols, IP addressing, routing, and network topologies is fundamental to IT infrastructure.";
  post_object 19 1
    "User Experience Design"
    "UX design focuses on creating products that provide meaningful experiences to users. It involves user research, prototyping, usability testing, and continuous improvement based on user feedback.";
  post_object 20 2
    "Operating Systems Fundamentals"
    "Operating systems manage hardware resources and provide services to applications. Understanding process management, memory allocation, file systems, and security is crucial for system development."
].

Definition fetchPosts : Async (result jsval) :=
  try_catch
    (ret (Success (VArr samplePosts)))
    (fun error => ret (Failure (message error))).

(** The shape [{ id, userId, title, body }] of a post record. *)
Definition post_shape (v : jsval) : bool :=
  match v with
  | VObj [(k1, VNum _); (k2, VNum _); (k3, VStr _); (k4, VStr _)] =>
      String.eqb k1 "id" && String.eqb k2 "userId"
      && String.eqb k3 "title" && String.eqb k4 "body"
  | _ => false
  end.

(** The storage keys of [src/utils/storage.js]. *)
Module KEYS.
Definition USER : string := "@user_data".
Definition FAVORITES : string := "@favorites".
Definition SETTINGS : string := "@settings".
Definition IS_LOGGED_IN : string := "@is_logged_in".
End KEYS.

(** ** Sample data for running the model *)

(** The [userData] literal the signup screen builds. *)
Definition user_object (username email password : string) : jsval :=
  VObj [("username", VStr username); ("email", VStr email); ("password", VStr password)].

Definition alice : jsval := user_object "alice" "alice@example.com" "s3cret".

Definition first_post : jsval := post_object 1 1 "First" "One".
Definition second_post : jsval := post_object 2 1 "Second" "Two".

(** A fresh install, and devices that hold an account, two favorites, or
    strings that are not JSON. *)
Definition fresh_install : World := mkWorld ∅ [].

Definition signed_up : World :=
  mkWorld (<[KEYS.IS_LOGGED_IN := "true"]> {[KEYS.USER := JSON.stringify alice]}) [].

Definition two_favorites : World :=
  mkWorld {[KEYS.FAVORITES := JSON.stringify (VArr [first_post; second_post])]} [].

Definition corrupted : World :=
  mkWorld (<[KEYS.SETTINGS := "{oops"]>
             (<[KEYS.FAVORITES := "[1,2"]>
                {[KEYS.IS_LOGGED_IN := "maybe"]})) [].

Definition bob : jsval := user_object "bob" "bob@example.com" "hunter22".

Definition third_post : jsval := post_object 3 2 "Third" "Three".

(** Devices whose favorites are a number, and whose settings are [null]
    while the login flag is set. *)
Definition favorites_a_number : World :=
  mkWorld {[KEYS.FAVORITES := "5"]} [].

Definition null_settings : World :=
  mkWorld (<[KEYS.SETTINGS := "null"]> {[KEYS.IS_LOGGED_IN := "true"]}) [].

(** ASCII instances of the platform's string functions, for running the
    screens of the model: [trim], [toLowerCase], [length] and the test of
    the signup screen's email pattern, a run of non-blank characters, an
    at-sign, a second run, a dot and a third run. *)
Definition sample_trim_start : string -> string := JSON.skip_ws.

Fixpoint sample_trim_end (s : string) : string :=
  match s with
  | EmptyString => EmptyString
  | String c rest =>
      match sample_trim_end rest with
      | EmptyString => if JSON.is_ws c then EmptyString else String c EmptyString
      | rest' => String c rest'
      end
  end.

Definition sample_trim (s : string) : string :=
  sample_trim_end (sample_trim_start s).

Definition sample_lower_char (c : ascii) : ascii :=
  let n := N_of_ascii c in
  if (65 <=? n)%N && (n <=? 90)%N then ascii_of_N (n + 32) else c.

Fixpoint sample_toLowerCase (s : string) : string :=
  match s with
  | EmptyString => EmptyString
  | String c rest => String (sample_lower_char c) (sample_toLowerCase rest)
  end.

(** After the at-sign: non-blank characters, a dot that is not the first
    of them, and a non-blank character after the dot. *)
Fixpoint sample_domain (seen : bool) (s : string) : bool :=
  match s with
  | EmptyString => false
  | String c rest =>
      if JSON.is_ws c then false
      else
        match rest with
        | String c' _ =>
            (seen && Ascii.eqb c "." && negb (JSON.is_ws c')) || sample_domain true rest
        | EmptyString => false
        end
  end.

Fixpoint sample_email_test (s : string) : bool :=
  match s with
  | EmptyString => false
  | String c rest =>
      match rest with
      | String c' rest' =>
          (negb (JSON.is_ws c) && Ascii.eqb c' "@" && sample_domain false rest')
          || sample_email_test rest
      | EmptyString => false
      end
  end.

(** ** [src/utils/storage.js] *)


(** The settings object literal [{ darkMode: d, notifications: n }]. *)
Definition settings_object (d n : bool) : jsval :=
  VObj [("darkMode", VBool d); ("notifications", VBool n)].

Section Storage.

(** The platform's JSON codec. [JSON_parse s = None] is [JSON.parse(s)]
    throwing a [SyntaxError]. *)
Variable JSON_stringify : jsval -> string.
Variable JSON_parse : string -> option jsval.

Definition JSON_parse_or_throw (s : string) : Async jsval :=
  match JSON_parse s with
  | Some v => ret v
  | None => throw (SyntaxError "JSON Parse error")
  end.

Definition saveUserData (userData : jsval) : Async (result unit) :=
  try_catch
    (await _ <- AsyncStorage.setItem KEYS.USER (JSON_stringify userData);
     await _ <- AsyncStorage.setItem KEYS.IS_LOGGED_IN "true";
     ret (Success tt))
    (fun error => ret (Failure (message error))).

Definition getUserData : Async jsval :=
  try_catch
    (await userData <- AsyncStorage.getItem KEYS.USER;
     match userData with
     | Some s => if truthy_item userData then JSON_parse_or_throw s else ret VNull
     | None => ret VNull
     end)
    (fun error => ret VNull).

Definition validateUser (email password : string) : Async (result jsval) :=
  try_catch
    (await userData <- getUserData;
     let invalid := ret (Failure "Invalid email or password") in
     if truthy userData then
       await stored_email <- member userData "email";
       if strict_eq stored_email (Some (VStr email)) then
         await stored_password <- member userData "password";
         if strict_eq stored_password (Some (VStr password))
         then ret (Success userData)
         else invalid
       else invalid
     else invalid)
    (fun error => ret (Failure (message error))).

Definition checkLoginStatus : Async bool :=
  try_catch
    (await isLoggedIn <- AsyncStorage.getItem KEYS.IS_LOGGED_IN;
     ret (match isLoggedIn with
          | Some s => String.eqb s "true"
          | None => false
          end))
    (fun error => ret false).

Definition logoutUser : Async (result unit) :=
  try_catch
    (await _ <- AsyncStorage.setItem KEYS.IS_LOGGED_IN "false";
     ret (Success tt))
    (fun error => ret (Failure (message error))).

Definition saveFavorites (favorites : jsval) : Async (result unit) :=
  try_catch
    (await _ <- AsyncStorage.setItem KEYS.FAVORITES (JSON_stringify favorites);
     ret (Success tt))
    (fun error => ret (Failure (message error))).

Definition getFavorites : Async jsval :=
  try_catch
    (await favorites <- AsyncStorage.getItem KEYS.FAVORITES;
     match favorites with
     | Some s => if truthy_item favorites then JSON_parse_or_throw s else ret (VArr [])
     | None => ret (VArr [])
     end)
    (fun error => ret (VArr [])).

(** [(item) => item.id === x] *)
Definition id_is (x : option jsval) (item : jsval) : Async bool :=
  await item_id <- member item "id";
  ret (strict_eq item_id x).

Definition addToFavorites (post : jsval) : Async (result unit) :=
  try_catch
    (await favorites <- getFavorites;
     await items <- as_array favorites;
     await exists_ <- Array_find
                        (fun item =>
                           await item_id <- member item "id";
                           await post_id <- member post "id";
                           ret (strict_eq item_id post_id))
                        items;
     if negb (truthy_opt exists_) then
       await _ <- saveFavorites (VArr (Array_push items post));
       ret (Success tt)
     else ret (Success tt))
    (fun error => ret (Failure (message error))).

Definition removeFromFavorites (postId : jsval) : Async (result unit) :=
  try_catch
    (await favorites <- getFavorites;
     await items <- as_array favorites;
     await filtered <- Array_filter
                         (fun item =>
                            await item_id <- member item "id";
                            ret (negb (strict_eq item_id (Some postId))))
                         items;
     await _ <- saveFavorites (VArr filtered);
     ret (Success tt))
    (fun error => ret (Failure (message error))).

Definition isInFavorites (postId : jsval) : Async bool :=
  try_catch
    (await favorites <- getFavorites;
     await items <- as_array favorites;
     Array_some (id_is (Some postId)) items)
    (fun error => ret false).

Definition saveSettings (settings : jsval) : Async (result unit) :=
  try_catch
    (await _ <- AsyncStorage.setItem KEYS.SETTINGS (JSON_stringify settings);
     ret (Success tt))
    (fun error => ret (Failure (message error))).

Definition getSettings : Async jsval :=
  try_catch
    (await settings <- AsyncStorage.getItem KEYS.SETTINGS;
     match settings with
     | Some s => if truthy_item settings then JSON_parse_or_throw s
                 else ret (settings_object false true)
     | None => ret (settings_object false true)
     end)
    (fun error => ret (settings_object false true)).

Definition clearAllData : Async (result unit) :=
  try_catch
    (await _ <- AsyncStorage.multiRemove
                  [KEYS.USER; KEYS.FAVORITES; KEYS.SETTINGS; KEYS.IS_LOGGED_IN];
     ret (Success tt))
    (fun error => ret (Failure (message error))).

(** ** [src/context/AppContext.js]: the session and settings store *)

Record AppState : Type := mkAppState {
  darkMode : bool;
  notificationsEnabled : bool;
  isLoggedIn : bool;
  user : jsval;
  isLoading : bool
}.

(** The [useState] initial values. *)
Definition initialState : AppState :=
  mkAppState false true false VNull true.

Definition setDarkMode (b : bool) (st : AppState) : AppState :=
  mkAppState b (notificationsEnabled st) (isLoggedIn st) (user st) (isLoading st).
Definition setNotificationsEnabled (b : bool) (st : AppState) : AppState :=
  mkAppState (darkMode st) b (isLoggedIn st) (user st) (isLoading st).
Definition setIsLoggedIn (b : bool) (st : AppState) : AppState :=
  mkAppState (darkMode st) (notificationsEnabled st) b (user st) (isLoading st).
Definition setUser (u : jsval) (st : AppState) : AppState :=
  mkAppState (darkMode st) (notificationsEnabled st) (isLoggedIn st) u (isLoading st).

Definition toggleDarkMode (st : AppState) : Async AppState :=
  let newValue := negb (darkMode st) in
  let st' := setDarkMode newValue st in
  await _ <- saveSettings (settings_object newValue (notificationsEnabled st));
  ret st'.

Definition toggleNotifications (st : AppState) : Async AppState :=
  let newValue := negb (notificationsEnabled st) in
  let st' := setNotificationsEnabled newValue st in
  await _ <- saveSettings (settings_object (darkMode st) newValue);
  ret st'.

Definition setUserData (userData : jsval) (st : AppState) : AppState :=
  setIsLoggedIn true (setUser userData st).

Definition clearUserData (st : AppState) : AppState :=
  setIsLoggedIn false (setUser VNull st).

(** ** The settings screen's logout: the [onPress] of the confirmation
    dialog's Logout button. [navigation.reset] replaces the route stack. *)
Definition handleLogout (st : AppState) (routes : list string)
  : Async (AppState * list string) :=
  let st' := clearUserData st in
  ret (st', ["Login"]).

(** ** Reading the disk *)

(** [v.k] on a value that is not [null]. *)
Definition field (k : string) (v : jsval) : option jsval :=
  match v with
  | VObj fields => assoc k fields
  | _ => None
  end.

(** What [JSON.parse] makes of the string stored under [key], when
    there is one, it is not empty and it parses. *)
Definition parsed (key : string) (d : gmap string string) : option jsval :=
  match d !! key with
  | Some s => if String.eqb s "" then None else JSON_parse s
  | None => None
  end.

(** What a reader that falls back on [dflt] resolves to in [w]. *)
Definition read_or (dflt : jsval) (key : string) (w : World) : jsval :=
  match fault w with
  | Some _ => dflt
  | None => default dflt (parsed key (disk w))
  end.

(** The favorites list a read that goes through sees on disk [d]. *)
Definition stored_favorites (d : gmap string string) : jsval :=
  default (VArr []) (parsed KEYS.FAVORITES d).

(** The world after [saveFavorites favorites]. *)
Definition write_favorites (favorites : jsval) (w : World) : World :=
  match fault w with
  | Some _ => tick w
  | None => commit (<[KEYS.FAVORITES := JSON_stringify favorites]> (disk w)) w
  end.

Definition not_null (v : jsval) : Prop := v <> VNull.

(** A post as the data model has it: an object with a numeric [id]. *)
Definition is_post (v : jsval) : bool :=
  match field "id" v with
  | Some (VNum _) => true
  | _ => false
  end.

(** [item.id === x] for an [item] that is not [null]. *)
Definition has_id (x : option jsval) (item : jsval) : bool :=
  strict_eq (field "id" item) x.

(** At most one entry per id. *)
Definition one_per_id (l : list jsval) : Prop :=
  NoDup (map (field "id") l).

(** The stored favorites are a list of posts with at most one entry per
    id (no stored string at all reads as the empty list). *)
Definition favorites_inv (d : gmap string string) : Prop :=
  exists l,
    stored_favorites d = VArr l
    /\ Forall (fun item => is_post item = true) l
    /\ one_per_id l.

(** The favorites operations the screens issue, and a run of them. *)
Inductive fav_op : Type :=
| Add (post : jsval)
| Remove (postId : jsval).

Definition run_op (op : fav_op) : Async (result unit) :=
  match op with
  | Add post => addToFavorites post
  | Remove postId => removeFromFavorites postId
  end.

Fixpoint run_ops (ops : list fav_op) : Async unit :=
  match ops with
  | [] => ret tt
  | op :: rest => await _ <- run_op op; run_ops rest
  end.

Definition adds_posts (op : fav_op) : Prop :=
  match op with
  | Add post => is_post post = true
  | Remove _ => True
  end.

(** A key whose stored string is missing or does not deserialize. *)
Definition unreadable (key : string) (d : gmap string string) : Prop :=
  d !! key = None \/ exists s, d !! key = Some s /\ JSON_parse s = None.

(** The world with [key] removed from the disk. *)
Definition forget (key : string) (w : World) : World :=
  mkWorld (delete key (disk w)) (faults w).

(** ** [src/context/AppContext.js]: rehydration on launch *)

(** The provider's state as JavaScript holds it: [darkMode] is whatever
    value [settings.darkMode || false] is, a boolean only when the
    stored settings hold one. *)
Record ProviderState : Type := mkProviderState {
  p_darkMode : jsval;
  p_notificationsEnabled : bool;
  p_isLoggedIn : bool;
  p_user : jsval;
  p_isLoading : bool
}.

(** The provider state in which [darkMode] is a boolean. *)
Definition provider_state (st : AppState) : ProviderState :=
  mkProviderState (VBool (darkMode st)) (notificationsEnabled st)
                  (isLoggedIn st) (user st) (isLoading st).

Definition p_setDarkMode (v : jsval) (st : ProviderState) : ProviderState :=
  mkProviderState v (p_notificationsEnabled st) (p_isLoggedIn st) (p_user st)
                  (p_isLoading st).
Definition p_setNotificationsEnabled (b : bool) (st : ProviderState) : ProviderState :=
  mkProviderState (p_darkMode st) b (p_isLoggedIn st) (p_user st) (p_isLoading st).
Definition p_setIsLoggedIn (b : bool) (st : ProviderState) : ProviderState :=
  mkProviderState (p_darkMode st) (p_notificationsEnabled st) b (p_user st)
                  (p_isLoading st).
Definition p_setUser (u : jsval) (st : ProviderState) : ProviderState :=
  mkProviderState (p_darkMode st) (p_notificationsEnabled st) (p_isLoggedIn st) u
                  (p_isLoading st).
Definition p_setIsLoading (b : bool) (st : ProviderState) : ProviderState :=
  mkProviderState (p_darkMode st) (p_notificationsEnabled st) (p_isLoggedIn st)
                  (p_user st) b.

(** [v || false] *)
Definition or_false (v : option jsval) : jsval :=
  match v with
  | Some x => if truthy x then x else VBool false
  | None => VBool false
  end.

(** [loadInitialData] has one [try] block, whose [catch] only logs, and
    a [finally] that clears [isLoading]. A throw leaves the state as the
    setters before it made it: each inner [try_catch] stands for the throw
    reaching that one [catch] after those setters have run. *)
Definition loadInitialData (st : ProviderState) : Async ProviderState :=
  await st' <-
    try_catch
      (await settings <- getSettings;
       await settings_darkMode <- member settings "darkMode";
       let st1 := p_setDarkMode (or_false settings_darkMode) st in
       try_catch
         (await settings_notifications <- member settings "notifications";
          let st2 :=
            p_setNotificationsEnabled
              (negb (strict_eq settings_notifications (Some (VBool false)))) st1 in
          try_catch
            (await loggedIn <- checkLoginStatus;
             let st3 := p_setIsLoggedIn loggedIn st2 in
             try_catch
               (if loggedIn then
                  await userData <- getUserData;
                  ret (p_setUser userData st3)
                else ret st3)
               (fun error => ret st3))
            (fun error => ret st2))
         (fun error => ret st1))
      (fun error => ret st);
  ret (p_setIsLoading false st').

(** The two switches of the settings screen, and a run of presses. *)
Inductive toggle : Type :=
| DarkMode
| Notifications.

Definition run_toggle (t : toggle) (st : AppState) : Async AppState :=
  match t with
  | DarkMode => toggleDarkMode st
  | Notifications => toggleNotifications st
  end.

Fixpoint run_toggles (ts : list toggle) (st : AppState) : Async AppState :=
  match ts with
  | [] => ret st
  | t :: rest => await st' <- run_toggle t st; run_toggles rest st'
  end.

(** ** The login and signup screens *)

(** The platform's string functions: [s.trim()], [s.toLowerCase()],
    [s.length], and the test of the signup screen's email pattern
    (non-blanks, an at-sign, non-blanks, a dot, non-blanks) against [s]. *)
Variable String_trim : string -> string.
Variable String_toLowerCase : string -> string.
Variable String_length : string -> nat.
Variable email_pattern_test : string -> bool.

(** [src/screens/LoginScreen.js]: the screen's [error] and [loading]. *)
Record LoginView : Type := mkLoginView {
  login_error : string;
  login_loading : bool
}.

Definition login_setError (e : string) (v : LoginView) : LoginView :=
  mkLoginView e (login_loading v).
Definition login_setLoading (b : bool) (v : LoginView) : LoginView :=
  mkLoginView (login_error v) b.

Definition handleLogin (email password : string)
    (view : LoginView) (ctx : AppState) (routes : list string)
  : Async (LoginView * AppState * list string) :=
  let view := login_setError "" view in
  if String.eqb (String_trim email) "" || String.eqb password "" then
    ret (login_setError "Please enter both email and password" view, ctx, routes)
  else
    let view := login_setLoading true view in
    await outcome <-
      try_catch
        (await result <- validateUser (String_toLowerCase (String_trim email)) password;
         match result with
         | Success result_user => ret (view, setUserData result_user ctx, ["Home"])
         | Failure result_error =>
             ret (login_setError
                    (if String.eqb result_error "" then "Invalid email or password"
                     else result_error) view,
                  ctx, routes)
         end)
        (fun err => ret (login_setError "An unexpected error occurred" view, ctx, routes));
    ret (login_setLoading false (fst (fst outcome)), snd (fst outcome), snd outcome).

(** [src/screens/SignupScreen.js]: the field messages, [loading], and the
    alert the screen last raised. *)
Record SignupErrors : Type := mkSignupErrors {
  username_error : string;
  email_error : string;
  password_error : string
}.

Record SignupView : Type := mkSignupView {
  signup_errors : SignupErrors;
  signup_loading : bool;
  signup_alert : option (string * string)
}.

Definition signup_setErrors (e : SignupErrors) (v : SignupView) : SignupView :=
  mkSignupView e (signup_loading v) (signup_alert v).
Definition signup_setLoading (b : bool) (v : SignupView) : SignupView :=
  mkSignupView (signup_errors v) b (signup_alert v).
Definition Alert_alert (title text : string) (v : SignupView) : SignupView :=
  mkSignupView (signup_errors v) (signup_loading v) (Some (title, text)).

(** [validateForm]: the verdict [isValid] and the [newErrors] it sets. *)
Definition validateForm (username email password : string) : bool * SignupErrors :=
  let isValid := true in
  let '(newErrors_username, isValid) :=
    if String.eqb (String_trim username) "" then ("Username is required", false)
    else ("", isValid) in
  let '(newErrors_email, isValid) :=
    if String.eqb (String_trim email) "" then ("Email is required", false)
    else if negb (email_pattern_test email) then ("Please enter a valid email", false)
    else ("", isValid) in
  let '(newErrors_password, isValid) :=
    if String.eqb password "" then ("Password is required", false)
    else if (String_length password <? 6)%nat
         then ("Password must be at least 6 characters", false)
    else ("", isValid) in
  (isValid, mkSignupErrors newErrors_username newErrors_email newErrors_password).

Definition handleSignup (username email password : string)
    (view : SignupView) (ctx : AppState)
  : Async (SignupView * AppState) :=
  let '(isValid, newErrors) := validateForm username email password in
  let view := signup_setErrors newErrors view in
  if negb isValid then ret (view, ctx)
  else
    let view := signup_setLoading true view in
    await outcome <-
      try_catch
        (let userData :=
           user_object (String_trim username)
                       (String_toLowerCase (String_trim email)) password in
         await result <- saveUserData userData;
         match result with
         | Success _ =>
             ret (Alert_alert "Success" "Account created successfully!" view,
                  setUserData userData ctx)
         | Failure _ =>
             ret (Alert_alert "Error" "Failed to create account. Please try again." view,
                  ctx)
         end)
        (fun error => ret (Alert_alert "Error" "An unexpected error occurred." view, ctx));
    ret (signup_setLoading false (fst outcome), snd outcome).

(** [src/screens/FavoritesScreen.js]: the list the screen shows and its
    [loading] and [refreshing] flags. [loadFavorites] sets the list to what
    [getFavorites] resolves to and clears both flags; the Remove button's
    [onPress] removes and reloads. *)
Record FavoritesView : Type := mkFavoritesView {
  shown_favorites : jsval;
  favorites_loading : bool;
  favorites_refreshing : bool
}.

Definition setFavorites (data : jsval) (v : FavoritesView) : FavoritesView :=
  mkFavoritesView data (favorites_loading v) (favorites_refreshing v).

Definition loadFavorites (view : FavoritesView) : Async FavoritesView :=
  await view' <-
    try_catch
      (await data <- getFavorites; ret (setFavorites data view))
      (fun error => ret view);
  ret (mkFavoritesView (shown_favorites view') false false).

Definition handleRemove (postId : jsval) (view : FavoritesView) : Async FavoritesView :=
  await _ <- removeFromFavorites postId;
  loadFavorites view.

(** ** Auxiliary notions for the properties *)

(** [userData && userData.email === email && userData.password ===
    password] for the [userData] a read resolved to. *)
Definition credentials_ok (email password : string) (u : jsval) : bool :=
  truthy u
  && strict_eq (field "email" u) (Some (VStr email))
  && strict_eq (field "password" u) (Some (VStr password)).

(** A computation that makes no AsyncStorage call: it hands the world
    back as it got it, whether it returns or throws. *)
Definition no_io {A} (m : Async A) : Prop :=
  forall w, snd (m w) = w.

(** How many presses of a switch a run holds. *)
Definition presses (t : toggle) (ts : list toggle) : nat :=
  length (List.filter (fun t' => match t, t' with
                                 | DarkMode, DarkMode => true
                                 | Notifications, Notifications => true
                                 | _, _ => false
                                 end) ts).

(** A boolean after [n] negations. *)
Definition flipped (n : nat) (b : bool) : bool :=
  if Nat.even n then b else negb b.

(** What a favorites operation may do to the world [w]: one read, and
    at most one write of the favorites key. *)
Definition favorites_step (w w' : World) : Prop :=
  w' = tick w \/ exists v, w' = write_favorites v (tick w).

(** The state a press of a switch leaves. *)
Definition press (t : toggle) (st : AppState) : AppState :=
  match t with
  | DarkMode => setDarkMode (negb (darkMode st)) st
  | Notifications => setNotificationsEnabled (negb (notificationsEnabled st)) st
  end.

(** What [checkLoginStatus] resolves to in [w]. *)
Definition login_flag (w : World) : bool :=
  match fault w with
  | Some _ => false
  | None => bool_decide (disk w !! KEYS.IS_LOGGED_IN = Some "true")
  end.

(** The state [loadInitialData] builds from the settings value [s] it
    read, when [s] is not [null]. *)
Definition hydrate_settings (s : jsval) (st : ProviderState) : ProviderState :=
  p_setNotificationsEnabled
    (negb (strict_eq (field "notifications" s) (Some (VBool false))))
    (p_setDarkMode (or_false (field "darkMode" s)) st).

(** ** Properties of the storage module *)

(** What the development assumes of the platform's codec: it is
    lossless, it rejects the empty string, and it reads the literal
    [true]. *)
Hypothesis JSON_roundtrip : forall v, JSON_parse (JSON_stringify v) = Some v.
Hypothesis JSON_parse_empty : JSON_parse "" = None.
Hypothesis JSON_parse_true : JSON_parse "true" = Some (VBool true).

Lemma bind_Normal {A B} (m : Async A) (k : A -> Async B) w a w' :
  m w = (Normal a, w') -> bind m k w = k a w'.
Proof. unfold bind. by intros ->. Qed.

Lemma try_catch_Normal {A} (body : Async A) handler w a w' :
  body w = (Normal a, w') -> try_catch body handler w = (Normal a, w').
Proof. unfold try_catch. by intros ->. Qed.

Lemma member_field v k w :
  v <> VNull -> member v k w = (Normal (field k v), w).
Proof. by destruct v. Qed.

Lemma reader_run (dflt : jsval) (key : string) (w : World) :
  try_catch
    (await item <- AsyncStorage.getItem key;
     match item with
     | Some s => if truthy_item item then JSON_parse_or_throw s else ret dflt
     | None => ret dflt
     end)
    (fun _ => ret dflt) w
  = (Normal (read_or dflt key w), tick w).
Proof.
  unfold try_catch, bind, AsyncStorage.getItem, read_or, parsed.
  destruct (fault w) as [msg|]; [done|].
  destruct (disk w !! key) as [s|]; simpl; [|done].
  destruct (String.eqb s ""); simpl; [done|].
  unfold JSON_parse_or_throw. by destruct (JSON_parse s).
Qed.

Lemma getUserData_run w :
  getUserData w = (Normal (read_or VNull KEYS.USER w), tick w).
Proof. apply reader_run. Qed.

Lemma getFavorites_run w :
  getFavorites w = (Normal (read_or (VArr []) KEYS.FAVORITES w), tick w).
Proof. apply reader_run. Qed.

Lemma getSettings_run w :
  getSettings w = (Normal (read_or (settings_object false true) KEYS.SETTINGS w), tick w).
Proof. apply reader_run. Qed.

Lemma checkLoginStatus_run w :
  checkLoginStatus w
  = (Normal (match fault w with
             | Some _ => false
             | None => bool_decide (disk w !! KEYS.IS_LOGGED_IN = Some "true")
             end), tick w).
Proof.
  unfold checkLoginStatus, try_catch, bind, AsyncStorage.getItem.
  destruct (fault w) as [msg|]; [done|]. simpl. do 2 f_equal.
  destruct (disk w !! KEYS.IS_LOGGED_IN) as [s|]; [|done].
  destruct (String.eqb_spec s "true") as [->|Hne]; [done|].
  rewrite bool_decide_eq_false_2; [done|congruence].
Qed.

Lemma strict_eq_str x s : strict_eq x (Some (VStr s)) = true <-> x = Some (VStr s).
Proof.
  destruct x as [[]|]; simpl; try (split; [done|congruence]).
  destruct (String.eqb_spec s0 s); split; congruence.
Qed.

Lemma strict_eq_num x n : strict_eq x (Some (VNum n)) = true <-> x = Some (VNum n).
Proof.
  destruct x as [[]|]; simpl; try (split; [done|congruence]).
  destruct (Z.eqb_spec n0 n); split; congruence.
Qed.

Lemma parsed_unreadable key d : unreadable key d -> parsed key d = None.
Proof.
  unfold parsed. intros [->|(s & -> & Hs)]; [done|].
  by destruct (String.eqb s "").
Qed.

Lemma read_or_unreadable dflt key w :
  unreadable key (disk w) -> read_or dflt key w = dflt.
Proof.
  intros H. unfold read_or. rewrite (parsed_unreadable _ _ H).
  by destruct (fault w).
Qed.

Lemma read_or_forget dflt key w : read_or dflt key (forget key w) = dflt.
Proof. apply read_or_unreadable. left. apply lookup_delete_eq. Qed.

(** C1. [validateUser] always resolves; it resolves to success carrying
    the stored record exactly when the read of the disk goes through, a
    record is stored, and its [email] and [password] are the given
    strings; every other outcome is the invalid-credentials failure. *)
Theorem validateUser_iff_exact_match (email password : string) (w : World) :
  exists r,
    validateUser email password w = (Normal r, tick w)
    /\ (forall u, r = Success u <->
                  fault w = None
                  /\ parsed KEYS.USER (disk w) = Some u
                  /\ field "email" u = Some (VStr email)
                  /\ field "password" u = Some (VStr password))
    /\ (success r = false -> r = Failure "Invalid email or password").
Proof.
  unfold validateUser, try_catch, bind. rewrite getUserData_run.
  unfold read_or.
  destruct (fault w) as [msg|] eqn:Hf; simpl.
  { eexists; split; [done|]. split; [|done]. intros u; split; [done|]. by intros [? _]. }
  destruct (parsed KEYS.USER (disk w)) as [u0|] eqn:Hp; simpl.
  2:{ eexists; split; [done|]. split; [|done]. intros u; split; [done|]. by intros (_ & ? & _). }
  assert (Hno : forall (P : Prop) u, (@Failure jsval "Invalid email or password" = Success u <-> P) <-> ~ P)
    by (intros; split; [intros [_ H] HP; by apply H in HP| intros HnP; split; [done|by intros ?]]).
  destruct u0 as [|b|n|s|items|fields]; simpl;
    try (eexists; split; [done|]; split; [|done]; intros u; apply Hno;
         by intros (_ & [= <-] & ? & _)).
  - destruct b; simpl; eexists; (split; [done|]); (split; [|done]); intros u; apply Hno;
      by intros (_ & [= <-] & ? & _).
  - destruct (negb (n =? 0)); simpl; eexists; (split; [done|]); (split; [|done]); intros u;
      apply Hno; by intros (_ & [= <-] & ? & _).
  - destruct (negb (String.eqb s "")); simpl; eexists; (split; [done|]); (split; [|done]);
      intros u; apply Hno; by intros (_ & [= <-] & ? & _).
  - unfold ret.
    destruct (strict_eq (assoc "email" fields) (Some (VStr email))) eqn:He; simpl.
    + destruct (strict_eq (assoc "password" fields) (Some (VStr password))) eqn:Hpw; simpl.
      * apply strict_eq_str in He, Hpw.
        eexists; split; [done|]. split; [|done]. intros u; split.
        -- by intros [= <-].
        -- by intros (_ & [= <-] & _).
      * eexists; split; [done|]. split; [|done]. intros u; apply Hno.
        intros (_ & [= <-] & _ & H). apply strict_eq_str in H. simpl in H. congruence.
    + eexists; split; [done|]. split; [|done]. intros u; apply Hno.
      intros (_ & [= <-] & H & _). apply strict_eq_str in H. simpl in H. congruence.
Qed.

(** C6. A key that is absent, or whose string does not deserialize,
    reads as the documented default: the default settings, the empty
    favorites list, a [null] user and a logged-out flag; and each read
    resolves to what it resolves to once the key is removed. *)
Theorem reads_fall_back_to_defaults (w : World) :
  (unreadable KEYS.SETTINGS (disk w) ->
     getSettings w = (Normal (settings_object false true), tick w)
     /\ fst (getSettings w) = fst (getSettings (forget KEYS.SETTINGS w)))
  /\ (unreadable KEYS.FAVORITES (disk w) ->
       getFavorites w = (Normal (VArr []), tick w)
       /\ fst (getFavorites w) = fst (getFavorites (forget KEYS.FAVORITES w)))
  /\ (unreadable KEYS.USER (disk w) ->
       getUserData w = (Normal VNull, tick w)
       /\ fst (getUserData w) = fst (getUserData (forget KEYS.USER w)))
  /\ (unreadable KEYS.IS_LOGGED_IN (disk w) ->
       checkLoginStatus w = (Normal false, tick w)
       /\ fst (checkLoginStatus w) = fst (checkLoginStatus (forget KEYS.IS_LOGGED_IN w))).
Proof.
  split; [|split; [|split]]; intros H; split.
  - by rewrite getSettings_run, read_or_unreadable.
  - by rewrite !getSettings_run, read_or_forget, read_or_unreadable.
  - by rewrite getFavorites_run, read_or_unreadable.
  - by rewrite !getFavorites_run, read_or_forget, read_or_unreadable.
  - by rewrite getUserData_run, read_or_unreadable.
  - by rewrite !getUserData_run, read_or_forget, read_or_unreadable.
  - rewrite checkLoginStatus_run. destruct (fault w); [done|].
    rewrite bool_decide_eq_false_2; [done|].
    destruct H as [->|(s & -> & Hs)]; [done|]. intros [= ->]. congruence.
  - rewrite !checkLoginStatus_run. simpl. unfold fault at 2. simpl.
    fold (fault w). destruct (fault w); [done|]. simpl. f_equal.
    rewrite lookup_delete_eq.
    rewrite !bool_decide_eq_false_2; [done|done|].
    destruct H as [->|(s & -> & Hs)]; [done|]. intros [= ->]. congruence.
Qed.

Lemma setItem_run key value w :
  AsyncStorage.setItem key value w
  = match fault w with
    | Some msg => (Throw (StorageError msg), tick w)
    | None => (Normal tt, commit (<[key := value]> (disk w)) w)
    end.
Proof. done. Qed.

(** Each of the three savers makes one [setItem] call and turns a
    rejection into a failure result. *)
Lemma saver_run key value w :
  try_catch
    (await _ <- AsyncStorage.setItem key value; ret (Success tt))
    (fun error => ret (Failure (message error))) w
  = match fault w with
    | Some msg => (Normal (Failure msg), tick w)
    | None => (Normal (Success tt), commit (<[key := value]> (disk w)) w)
    end.
Proof.
  unfold try_catch, bind. rewrite setItem_run. by destruct (fault w).
Qed.

Lemma saveFavorites_run favorites w :
  saveFavorites favorites w
  = match fault w with
    | Some msg => (Normal (Failure msg), tick w)
    | None => (Normal (Success tt),
               commit (<[KEYS.FAVORITES := JSON_stringify favorites]> (disk w)) w)
    end.
Proof. apply saver_run. Qed.

Lemma saveSettings_run settings w :
  saveSettings settings w
  = match fault w with
    | Some msg => (Normal (Failure msg), tick w)
    | None => (Normal (Success tt),
               commit (<[KEYS.SETTINGS := JSON_stringify settings]> (disk w)) w)
    end.
Proof. apply saver_run. Qed.

Lemma JSON_stringify_nonempty v : String.eqb (JSON_stringify v) "" = false.
Proof.
  destruct (String.eqb_spec (JSON_stringify v) "") as [Heq|]; [|done].
  pose proof (JSON_roundtrip v) as Hrt. rewrite Heq in Hrt. congruence.
Qed.

(** Reading back what a saver wrote. *)
Lemma parsed_insert_eq key v d :
  parsed key (<[key := JSON_stringify v]> d) = Some v.
Proof.
  unfold parsed. rewrite lookup_insert_eq, JSON_stringify_nonempty.
  apply JSON_roundtrip.
Qed.

Lemma parsed_insert_ne key key' s d :
  key <> key' -> parsed key' (<[key := s]> d) = parsed key' d.
Proof. intros Hne. unfold parsed. by rewrite lookup_insert_ne. Qed.

(** C9. When signup reports success, the user record and the login
    flag have both been written, and the next login check whose read goes
    through answers true. The two writes are not atomic: when the second
    is rejected the result is a failure, yet the record of the first is on
    the disk. *)
Theorem saveUserData_success_sets_login_flag (userData : jsval) (w : World) :
  (forall w', saveUserData userData w = (Normal (Success tt), w') ->
     disk w' !! KEYS.USER = Some (JSON_stringify userData)
     /\ disk w' !! KEYS.IS_LOGGED_IN = Some "true"
     /\ (fault w' = None -> fst (checkLoginStatus w') = Normal true))
  /\ (forall msg, fault w = None -> fault (tick w) = Some msg ->
       exists w', saveUserData userData w = (Normal (Failure msg), w')
                  /\ disk w' = <[KEYS.USER := JSON_stringify userData]> (disk w)).
Proof.
  unfold saveUserData, try_catch, bind. rewrite setItem_run.
  destruct (fault w) as [m|] eqn:Hf; [split; [done|done]|].
  rewrite setItem_run.
  change (fault (commit _ w)) with (fault (tick w)).
  destruct (fault (tick w)) as [m|] eqn:Hf'; simpl.
  - split; [done|]. intros msg _ [= <-]. by eexists.
  - split; [|done]. intros w' [= <-]. simpl.
    split; [by rewrite lookup_insert_ne, lookup_insert_eq|].
    split; [by rewrite lookup_insert_eq|].
    intros Hf''. rewrite checkLoginStatus_run, Hf''. simpl.
    by rewrite lookup_insert_eq.
Qed.

(** C7. When the write goes through, toggling dark mode stores the
    settings record with [darkMode] negated and [notifications] as it
    was, leaves every other key alone, and the next settings read that
    goes through yields that record. *)
Theorem toggleDarkMode_persists_negation (st : AppState) (w : World) :
  fault w = None ->
  exists w',
    toggleDarkMode st w = (Normal (setDarkMode (negb (darkMode st)) st), w')
    /\ disk w' !! KEYS.SETTINGS
       = Some (JSON_stringify
                 (settings_object (negb (darkMode st)) (notificationsEnabled st)))
    /\ (forall key, key <> KEYS.SETTINGS -> disk w' !! key = disk w !! key)
    /\ (fault w' = None ->
        fst (getSettings w')
        = Normal (settings_object (negb (darkMode st)) (notificationsEnabled st)))
    /\ (darkMode st = false ->
        parsed KEYS.SETTINGS (disk w')
        = Some (settings_object true (notificationsEnabled st))).
Proof.
  intros Hf. unfold toggleDarkMode, bind. rewrite saveSettings_run, Hf.
  eexists; split; [done|]. simpl.
  split; [by rewrite lookup_insert_eq|].
  split; [by intros key Hne; rewrite lookup_insert_ne|].
  split.
  - intros Hf'. rewrite getSettings_run. unfold read_or. rewrite Hf'. simpl.
    by rewrite parsed_insert_eq.
  - intros ->. by rewrite parsed_insert_eq.
Qed.

(** C4 (amended). Logging out from the settings screen resets the
    in-memory session and leaves the stored user record where it is: the
    next [getUserData] resolves to what it resolved to before.
    [logoutUser] does not touch the record either. *)
Theorem logout_keeps_stored_user_record (st : AppState) (routes : list string) (w : World) :
  (exists st' w',
      handleLogout st routes w = (Normal (st', ["Login"]), w')
      /\ user st' = VNull
      /\ isLoggedIn st' = false
      /\ disk w' !! KEYS.USER = disk w !! KEYS.USER
      /\ getUserData w' = getUserData w)
  /\ (exists r w', logoutUser w = (Normal r, w')
                   /\ disk w' !! KEYS.USER = disk w !! KEYS.USER).
Proof.
  split.
  - by exists (clearUserData st), w.
  - unfold logoutUser. rewrite saver_run.
    destruct (fault w); eexists _, _; (split; [done|]); [done|].
    simpl. by rewrite lookup_insert_ne.
Qed.

(** The array callbacks run without throwing on entries that are not
    [null], and then the array methods are the list functions. *)
Lemma Array_find_run post l w :
  Forall not_null l -> post <> VNull ->
  Array_find
    (fun item =>
       await item_id <- member item "id";
       await post_id <- member post "id";
       ret (strict_eq item_id post_id)) l w
  = (Normal (List.find (has_id (field "id" post)) l), w).
Proof.
  intros Hl Hp. induction Hl as [|item rest Hitem _ IH]; [done|].
  simpl. unfold bind at 1 2 3.
  rewrite (member_field item) by done. rewrite (member_field post) by done.
  unfold ret at 1. fold (has_id (field "id" post) item).
  by destruct (has_id (field "id" post) item).
Qed.

Lemma Array_filter_run postId l w :
  Forall not_null l ->
  Array_filter
    (fun item =>
       await item_id <- member item "id";
       ret (negb (strict_eq item_id (Some postId)))) l w
  = (Normal (List.filter (fun item => negb (has_id (Some postId) item)) l), w).
Proof.
  intros Hl. induction Hl as [|item rest Hitem _ IH]; [done|].
  simpl. unfold bind at 1 2 3.
  rewrite (member_field item) by done. unfold ret at 1.
  rewrite IH. unfold ret. fold (has_id (Some postId) item).
  by destruct (has_id (Some postId) item).
Qed.

Lemma Array_some_run x l w :
  Forall not_null l ->
  Array_some (id_is x) l w = (Normal (existsb (has_id x) l), w).
Proof.
  intros Hl. induction Hl as [|item rest Hitem _ IH]; [done|].
  simpl. unfold bind at 1. unfold id_is at 1. unfold bind at 1.
  rewrite (member_field item) by done. unfold ret at 1.
  fold (has_id x item). by destruct (has_id x item).
Qed.

Lemma has_id_num n item :
  has_id (Some (VNum n)) item = true <-> field "id" item = Some (VNum n).
Proof. apply strict_eq_num. Qed.

(** C10. When the read goes through and the stored favorites are a list
    without [null] entries, [isInFavorites] answers true exactly when
    some stored entry has the id (for a number: exactly when some entry's
    [id] field is that number); when the read is rejected it answers
    false. *)
Theorem isInFavorites_iff_stored (postId : jsval) (w : World) :
  (forall l,
      fault w = None ->
      stored_favorites (disk w) = VArr l ->
      Forall not_null l ->
      exists b,
        isInFavorites postId w = (Normal b, tick w)
        /\ (b = true <-> exists item, item ∈ l /\ has_id (Some postId) item = true)
        /\ (forall n, postId = VNum n ->
              (b = true <-> exists item, item ∈ l /\ field "id" item = Some (VNum n))))
  /\ (forall msg, fault w = Some msg -> isInFavorites postId w = (Normal false, tick w)).
Proof.
  unfold isInFavorites, try_catch, bind. rewrite getFavorites_run. unfold read_or.
  split.
  - intros l -> Hl Hnn. unfold stored_favorites in Hl. rewrite Hl. simpl.
    rewrite Array_some_run by done.
    eexists; split; [done|].
    assert (Hex : existsb (has_id (Some postId)) l = true <->
                  exists item, item ∈ l /\ has_id (Some postId) item = true).
    { rewrite existsb_exists. by setoid_rewrite list_elem_of_In. }
    split; [done|]. intros n ->. rewrite Hex.
    by setoid_rewrite has_id_num.
  - by intros msg ->.
Qed.

Lemma saveFavorites_world favorites w :
  exists r, saveFavorites favorites w = (Normal r, write_favorites favorites w).
Proof.
  rewrite saveFavorites_run. unfold write_favorites.
  destruct (fault w); by eexists.
Qed.

Lemma removeFromFavorites_run postId l w :
  read_or (VArr []) KEYS.FAVORITES w = VArr l ->
  Forall not_null l ->
  removeFromFavorites postId w
  = (Normal (Success tt),
     write_favorites
       (VArr (List.filter (fun item => negb (has_id (Some postId) item)) l)) (tick w)).
Proof.
  intros Hl Hnn. unfold removeFromFavorites. apply try_catch_Normal.
  erewrite bind_Normal by apply getFavorites_run. rewrite Hl.
  erewrite bind_Normal by reflexivity.
  erewrite bind_Normal by by apply Array_filter_run.
  destruct (saveFavorites_world
              (VArr (List.filter (fun item => negb (has_id (Some postId) item)) l))
              (tick w)) as [r Hr].
  by erewrite bind_Normal by apply Hr.
Qed.

Lemma addToFavorites_run post l w :
  read_or (VArr []) KEYS.FAVORITES w = VArr l ->
  Forall not_null l -> post <> VNull ->
  addToFavorites post w
  = (Normal (Success tt),
     if truthy_opt (List.find (has_id (field "id" post)) l)
     then tick w
     else write_favorites (VArr (l ++ [post])) (tick w)).
Proof.
  intros Hl Hnn Hp. unfold addToFavorites. apply try_catch_Normal.
  erewrite bind_Normal by apply getFavorites_run. rewrite Hl.
  erewrite bind_Normal by reflexivity.
  erewrite bind_Normal by by apply Array_find_run.
  destruct (truthy_opt (List.find (has_id (field "id" post)) l)); simpl; [done|].
  destruct (saveFavorites_world (VArr (Array_push l post)) (tick w)) as [r Hr].
  by erewrite bind_Normal by apply Hr.
Qed.

(** C3 (the code at the failing input). A rejected write, and a
    rejected read, both end in a success result: on an empty disk with
    the write rejected nothing is stored; with the read rejected the
    stored list is replaced by what the operation computed from the empty
    list. [saveFavorites] itself does report the rejected write. *)
Theorem favorites_errors_end_in_success
    (post postId : jsval) (msg : string) (d : gmap string string) :
  addToFavorites post (mkWorld ∅ [None; Some msg])
  = (Normal (Success tt), mkWorld ∅ [])
  /\ removeFromFavorites postId (mkWorld ∅ [None; Some msg])
     = (Normal (Success tt), mkWorld ∅ [])
  /\ addToFavorites post (mkWorld d [Some msg])
     = (Normal (Success tt),
        mkWorld (<[KEYS.FAVORITES := JSON_stringify (VArr [post])]> d) [])
  /\ removeFromFavorites postId (mkWorld d [Some msg])
     = (Normal (Success tt),
        mkWorld (<[KEYS.FAVORITES := JSON_stringify (VArr [])]> d) [])
  /\ saveFavorites (VArr [post]) (mkWorld d [Some msg])
     = (Normal (Failure msg), mkWorld d []).
Proof. done. Qed.

(** *** Lists of posts *)

Lemma is_post_not_null item : is_post item = true -> not_null item.
Proof. by intros H ->. Qed.

Lemma is_post_truthy item : is_post item = true -> truthy item = true.
Proof. by destruct item. Qed.

Lemma posts_not_null l :
  Forall (fun item => is_post item = true) l -> Forall not_null l.
Proof. intros H. eapply Forall_impl; [exact H|]. apply is_post_not_null. Qed.

Lemma has_id_post post item :
  is_post post = true ->
  has_id (field "id" post) item = true <-> field "id" item = field "id" post.
Proof.
  unfold is_post. destruct (field "id" post) as [[]|]; try done.
  intros _. apply has_id_num.
Qed.

Lemma find_truthy (f : jsval -> bool) l :
  Forall (fun item => is_post item = true) l ->
  truthy_opt (List.find f l) = existsb f l.
Proof.
  induction 1 as [|item rest Hitem _ IH]; [done|]. simpl.
  destruct (f item); [|done]. by apply is_post_truthy.
Qed.

Lemma filter_Forall {A} (P : A -> Prop) (f : A -> bool) l :
  Forall P l -> Forall P (List.filter f l).
Proof.
  induction 1 as [|x rest Hx _ IH]; [done|]. simpl.
  destruct (f x); [by constructor|done].
Qed.

Lemma filter_idem {A} (f : A -> bool) l :
  List.filter f (List.filter f l) = List.filter f l.
Proof.
  induction l as [|x rest IH]; [done|]. simpl.
  destruct (f x) eqn:Hx; [|done]. simpl. by rewrite Hx, IH.
Qed.

Lemma filter_all {A} (f : A -> bool) l :
  (forall x, x ∈ l -> f x = true) -> List.filter f l = l.
Proof.
  induction l as [|x rest IH]; [done|]. intros H. simpl.
  rewrite (H x) by left. f_equal. apply IH. intros y Hy. apply H. by right.
Qed.

Lemma one_per_id_filter (f : jsval -> bool) l :
  one_per_id l -> one_per_id (List.filter f l).
Proof.
  unfold one_per_id. induction l as [|x rest IH]; [done|]. simpl.
  intros [Hx Hrest]%NoDup_cons. destruct (f x); [|by apply IH].
  simpl. apply NoDup_cons. split; [|by apply IH].
  intros (y & Hy & Hin)%list_elem_of_fmap. apply Hx.
  apply list_elem_of_fmap. exists y. split; [done|].
  apply list_elem_of_In. apply list_elem_of_In in Hin.
  by apply filter_In in Hin as [? _].
Qed.

Lemma one_per_id_snoc post l :
  one_per_id l ->
  (forall item, item ∈ l -> field "id" item <> field "id" post) ->
  one_per_id (l ++ [post]).
Proof.
  unfold one_per_id. intros Hl Hfresh. rewrite fmap_app. simpl.
  apply NoDup_app. split; [done|]. split; [|apply NoDup_singleton].
  intros x (y & -> & Hy)%list_elem_of_fmap Hx%list_elem_of_singleton.
  by apply (Hfresh y).
Qed.

(** An id held by a list with one entry per id is held exactly once. *)
Lemma one_per_id_count x l :
  one_per_id l ->
  (exists item, item ∈ l /\ has_id x item = true) ->
  (forall item, has_id x item = true <-> field "id" item = x) ->
  length (List.filter (has_id x) l) = 1%nat.
Proof.
  unfold one_per_id. intros Hnd (item & Hin & Hid) Hx.
  induction l as [|y rest IH]; [by apply not_elem_of_nil in Hin|].
  simpl in Hnd. apply NoDup_cons in Hnd as [Hy Hrest]. simpl.
  destruct (has_id x y) eqn:Hyx; simpl.
  - f_equal. rewrite (proj2 (List.length_zero_iff_nil _)); [done|].
    apply Hx in Hyx. destruct (List.filter (has_id x) rest) as [|z ?] eqn:Hz; [done|].
    exfalso. assert (Hzin : In z (List.filter (has_id x) rest)) by (rewrite Hz; by left).
    apply filter_In in Hzin as [Hzin Hzx]. apply Hx in Hzx.
    apply Hy. apply list_elem_of_fmap. exists z. split; [congruence|].
    by apply list_elem_of_In.
  - apply IH; [done|]. apply elem_of_cons in Hin as [->|Hin]; [congruence|done].
Qed.

Lemma stored_favorites_insert v d :
  stored_favorites (<[KEYS.FAVORITES := JSON_stringify v]> d) = v.
Proof. unfold stored_favorites. by rewrite parsed_insert_eq. Qed.

Lemma quiet_tick w : faults w = [] -> tick w = w.
Proof. destruct w as [d f]. simpl. by intros ->. Qed.

Lemma quiet_fault w : faults w = [] -> fault w = None.
Proof. unfold fault. by intros ->. Qed.

Lemma quiet_read w :
  faults w = [] -> read_or (VArr []) KEYS.FAVORITES w = stored_favorites (disk w).
Proof. intros H. unfold read_or. by rewrite quiet_fault. Qed.

Lemma quiet_write v w :
  faults w = [] ->
  write_favorites v w = mkWorld (<[KEYS.FAVORITES := JSON_stringify v]> (disk w)) [].
Proof. intros H. unfold write_favorites, commit. by rewrite quiet_fault, H. Qed.

Lemma removeFromFavorites_quiet postId l w :
  faults w = [] -> stored_favorites (disk w) = VArr l -> Forall not_null l ->
  removeFromFavorites postId w
  = (Normal (Success tt),
     mkWorld (<[KEYS.FAVORITES :=
                  JSON_stringify
                    (VArr (List.filter (fun item => negb (has_id (Some postId) item)) l))]>
                (disk w)) []).
Proof.
  intros Hq Hl Hnn.
  rewrite (removeFromFavorites_run postId l) by (by rewrite ?quiet_read).
  by rewrite quiet_tick, quiet_write.
Qed.

Lemma addToFavorites_quiet post l w :
  faults w = [] -> stored_favorites (disk w) = VArr l ->
  Forall (fun item => is_post item = true) l -> is_post post = true ->
  addToFavorites post w
  = (Normal (Success tt),
     if existsb (has_id (field "id" post)) l
     then w
     else mkWorld (<[KEYS.FAVORITES := JSON_stringify (VArr (l ++ [post]))]> (disk w)) []).
Proof.
  intros Hq Hl Hposts Hpost.
  rewrite (addToFavorites_run post l);
    [|by rewrite quiet_read|by apply posts_not_null|by apply is_post_not_null].
  by rewrite find_truthy, quiet_tick, quiet_write.
Qed.

Lemma existsb_false_fresh post l :
  is_post post = true ->
  existsb (has_id (field "id" post)) l = false ->
  forall item, item ∈ l -> field "id" item <> field "id" post.
Proof.
  intros Hpost Hex item Hin Heq.
  apply (has_id_post post item Hpost) in Heq.
  assert (existsb (has_id (field "id" post)) l = true); [|congruence].
  apply existsb_exists. exists item. split; [by apply list_elem_of_In|done].
Qed.

Lemma existsb_true_held post l :
  is_post post = true ->
  (exists item, item ∈ l /\ field "id" item = field "id" post) ->
  existsb (has_id (field "id" post)) l = true.
Proof.
  intros Hpost (item & Hin & Heq). apply existsb_exists. exists item.
  split; [by apply list_elem_of_In|]. by apply has_id_post.
Qed.

(** C5. With no storage fault pending and a stored list without
    [null] entries, [removeFromFavorites] succeeds and stores the list
    without the entries whose id is the given one, touching no other key;
    removing twice is removing once; and when no entry has the id the
    stored list is what it was. *)
Theorem removeFromFavorites_removes_exactly (postId : jsval) (l : list jsval) (w : World) :
  faults w = [] ->
  stored_favorites (disk w) = VArr l ->
  Forall not_null l ->
  let kept := List.filter (fun item => negb (has_id (Some postId) item)) l in
  exists w',
    removeFromFavorites postId w = (Normal (Success tt), w')
    /\ stored_favorites (disk w') = VArr kept
    /\ (forall item, item ∈ kept <-> item ∈ l /\ has_id (Some postId) item = false)
    /\ (forall key, key <> KEYS.FAVORITES -> disk w' !! key = disk w !! key)
    /\ (await _ <- removeFromFavorites postId; removeFromFavorites postId) w
       = removeFromFavorites postId w
    /\ ((forall item, item ∈ l -> has_id (Some postId) item = false) ->
        stored_favorites (disk w') = stored_favorites (disk w)).
Proof.
  intros Hq Hl Hnn kept.
  pose proof (removeFromFavorites_quiet postId l w Hq Hl Hnn) as Hrun.
  fold kept in Hrun. eexists. split; [exact Hrun|]. simpl.
  split; [apply stored_favorites_insert|].
  split.
  { intros item. unfold kept. rewrite !list_elem_of_In, filter_In.
    by rewrite negb_true_iff. }
  split; [by intros key Hne; rewrite lookup_insert_ne|].
  split.
  - erewrite bind_Normal by exact Hrun.
    rewrite (removeFromFavorites_quiet postId kept);
      [|done|apply stored_favorites_insert|by apply filter_Forall].
    rewrite Hrun. simpl. unfold kept at 1. fold kept.
    unfold kept at 1. rewrite filter_idem. fold kept.
    by rewrite insert_insert_eq.
  - intros Hnone. rewrite stored_favorites_insert, Hl. f_equal.
    apply filter_all. intros item Hin. by rewrite (Hnone item Hin).
Qed.

Lemma write_favorites_inv l w :
  favorites_inv (disk w) ->
  Forall (fun item => is_post item = true) l -> one_per_id l ->
  favorites_inv (disk (write_favorites (VArr l) w)).
Proof.
  intros Hinv Hposts Huniq. unfold write_favorites.
  destruct (fault w); [done|]. simpl.
  exists l. by rewrite stored_favorites_insert.
Qed.

(** What a favorites read resolves to in a world that satisfies the
    invariant, whatever fault is pending. *)
Lemma read_inv w :
  favorites_inv (disk w) ->
  exists l, read_or (VArr []) KEYS.FAVORITES w = VArr l
            /\ Forall (fun item => is_post item = true) l
            /\ one_per_id l.
Proof.
  intros (l & Hl & Hposts & Huniq). unfold read_or.
  destruct (fault w).
  - exists []. split; [done|]. split; [done|]. apply NoDup_nil_2.
  - by exists l.
Qed.

Lemma run_op_inv op w :
  adds_posts op -> favorites_inv (disk w) ->
  exists r w', run_op op w = (Normal r, w') /\ favorites_inv (disk w').
Proof.
  intros Hop Hinv. destruct (read_inv w Hinv) as (l & Hread & Hposts & Huniq).
  destruct op as [post|postId]; simpl in *.
  - rewrite (addToFavorites_run post l);
      [|done|by apply posts_not_null|by apply is_post_not_null].
    eexists _, _. split; [done|]. rewrite find_truthy by done.
    destruct (existsb (has_id (field "id" post)) l) eqn:Hex; [done|].
    apply write_favorites_inv; [done| |].
    + apply Forall_app. split; [done|]. by constructor.
    + apply one_per_id_snoc; [done|]. by apply existsb_false_fresh.
  - rewrite (removeFromFavorites_run postId l); [|done|by apply posts_not_null].
    eexists _, _. split; [done|].
    apply write_favorites_inv; [done|by apply filter_Forall|by apply one_per_id_filter].
Qed.

Lemma run_ops_inv ops w :
  Forall adds_posts ops -> favorites_inv (disk w) ->
  exists w', run_ops ops w = (Normal tt, w') /\ favorites_inv (disk w').
Proof.
  intros Hops. revert w. induction Hops as [|op rest Hop _ IH]; intros w Hinv.
  - by exists w.
  - destruct (run_op_inv op w Hop Hinv) as (r & w1 & Hrun & Hinv1).
    destruct (IH w1 Hinv1) as (w' & Hrest & Hinv').
    exists w'. split; [|done]. simpl. by erewrite bind_Normal by exact Hrun.
Qed.

(** C2. With no storage fault pending, [addToFavorites] leaves the
    world as it is when a stored entry has the post's id, and otherwise
    stores the list with the post appended. Whatever faults occur, a run
    of add and remove operations from a disk whose favorites hold at most
    one entry per id ends in such a disk. Adding two posts with the same
    id in a row leaves exactly one stored entry with that id. *)
Theorem favorites_at_most_one_entry_per_id :
  (forall post l w,
      faults w = [] ->
      stored_favorites (disk w) = VArr l ->
      Forall (fun item => is_post item = true) l ->
      is_post post = true ->
      ((exists item, item ∈ l /\ field "id" item = field "id" post) ->
       addToFavorites post w = (Normal (Success tt), w))
      /\ ((forall item, item ∈ l -> field "id" item <> field "id" post) ->
          addToFavorites post w
          = (Normal (Success tt),
             mkWorld (<[KEYS.FAVORITES := JSON_stringify (VArr (l ++ [post]))]> (disk w))
                     [])))
  /\ (forall ops w,
        Forall adds_posts ops ->
        favorites_inv (disk w) ->
        exists w', run_ops ops w = (Normal tt, w') /\ favorites_inv (disk w'))
  /\ (forall post post' w,
        faults w = [] ->
        favorites_inv (disk w) ->
        is_post post = true -> is_post post' = true ->
        field "id" post' = field "id" post ->
        exists l' w',
          run_ops [Add post; Add post'] w = (Normal tt, w')
          /\ stored_favorites (disk w') = VArr l'
          /\ length (List.filter (has_id (field "id" post)) l') = 1%nat).
Proof.
  split; [|split; [exact run_ops_inv|]].
  - intros post l w Hq Hl Hposts Hpost.
    rewrite (addToFavorites_quiet post l w) by done. split.
    + intros Hheld. by rewrite existsb_true_held.
    + intros Hfresh.
      destruct (existsb (has_id (field "id" post)) l) eqn:Hex; [|done].
      apply existsb_exists in Hex as (item & Hin & Hid).
      apply has_id_post in Hid; [|done].
      by apply list_elem_of_In, Hfresh in Hin.
  - intros post post' w Hq (l & Hl & Hposts & Huniq) Hpost Hpost' Hsame.
    set (l1 := if existsb (has_id (field "id" post)) l then l else (l ++ [post])%list).
    assert (Hposts1 : Forall (fun item => is_post item = true) l1).
    { unfold l1. destruct (existsb _ l); [done|].
      apply Forall_app. split; [done|]. by constructor. }
    assert (Huniq1 : one_per_id l1).
    { unfold l1. destruct (existsb _ l) eqn:Hex; [done|].
      apply one_per_id_snoc; [done|]. by apply existsb_false_fresh. }
    assert (Hheld1 : exists item, item ∈ l1 /\ has_id (field "id" post) item = true).
    { unfold l1. destruct (existsb _ l) eqn:Hex.
      - apply existsb_exists in Hex as (item & Hin & Hid).
        exists item. split; [by apply list_elem_of_In|done].
      - exists post. split; [apply elem_of_app; right; by left|].
        by apply has_id_post. }
    assert (Hstep1 : exists w1,
               addToFavorites post w = (Normal (Success tt), w1)
               /\ faults w1 = [] /\ stored_favorites (disk w1) = VArr l1).
    { rewrite (addToFavorites_quiet post l w) by done. unfold l1.
      destruct (existsb _ l); eexists; (split; [done|]); [done|].
      split; [done|]. apply stored_favorites_insert. }
    destruct Hstep1 as (w1 & Hrun1 & Hq1 & Hl1).
    exists l1, w1. split; [|split; [done|]].
    + assert (Hrun2 : addToFavorites post' w1 = (Normal (Success tt), w1)).
      { rewrite (addToFavorites_quiet post' l1 w1) by done.
        rewrite Hsame. destruct Hheld1 as (item & Hin & Hid).
        rewrite (proj2 (existsb_exists _ _)); [done|].
        exists item. split; [by apply list_elem_of_In|done]. }
      simpl. erewrite bind_Normal by exact Hrun1.
      by erewrite bind_Normal by exact Hrun2.
    + apply one_per_id_count; [done|done|].
      intros item. by apply has_id_post.
Qed.

(** ** Further properties of the storage module *)

Lemma quiet_commit d w : faults w = [] -> commit d w = mkWorld d [].
Proof. unfold commit. by intros ->. Qed.

Lemma validateUser_run email password w :
  validateUser email password w
  = (Normal (if credentials_ok email password (read_or VNull KEYS.USER w)
             then Success (read_or VNull KEYS.USER w)
             else Failure "Invalid email or password"),
     tick w).
Proof.
  unfold validateUser. apply try_catch_Normal.
  erewrite bind_Normal by apply getUserData_run.
  unfold credentials_ok.
  destruct (read_or VNull KEYS.USER w) as [|b|n|s|items|fields]; simpl; try done.
  - by destruct b.
  - by destruct (negb (n =? 0)).
  - by destruct (negb (String.eqb s "")).
  - unfold bind, ret.
    destruct (strict_eq (assoc "email" fields) (Some (VStr email))); [|done].
    by destruct (strict_eq (assoc "password" fields) (Some (VStr password))).
Qed.

Lemma saveUserData_quiet userData w :
  faults w = [] ->
  saveUserData userData w
  = (Normal (Success tt),
     mkWorld (<[KEYS.IS_LOGGED_IN := "true"]>
                (<[KEYS.USER := JSON_stringify userData]> (disk w))) []).
Proof.
  intros Hq. unfold saveUserData. apply try_catch_Normal.
  erewrite bind_Normal by (rewrite setItem_run, quiet_fault by done; reflexivity).
  erewrite bind_Normal
    by (rewrite setItem_run, quiet_fault by (by rewrite quiet_commit); reflexivity).
  by rewrite !quiet_commit by (by rewrite ?quiet_commit).
Qed.

Lemma credentials_ok_spec email password u email' password' :
  field "email" u = Some (VStr email) ->
  field "password" u = Some (VStr password) ->
  credentials_ok email' password' u
  = String.eqb email email' && String.eqb password password'.
Proof.
  intros He Hp. unfold credentials_ok. rewrite He, Hp. simpl.
  by destruct u.
Qed.

(** X1. Signup then login. On a device with no storage fault pending,
    after [saveUserData] has stored a record whose [email] and [password]
    are strings, [validateUser] succeeds with that record for exactly those
    two strings and answers the invalid-credentials failure for any other
    pair, whatever record was stored before. *)
Theorem signup_then_login (userData : jsval) (email password : string) (w : World) :
  faults w = [] ->
  field "email" userData = Some (VStr email) ->
  field "password" userData = Some (VStr password) ->
  forall email' password',
    fst ((await _ <- saveUserData userData; validateUser email' password') w)
    = Normal (if String.eqb email email' && String.eqb password password'
              then Success userData
              else Failure "Invalid email or password").
Proof.
  intros Hq He Hp email' password'.
  erewrite bind_Normal by by apply saveUserData_quiet.
  rewrite validateUser_run. simpl. unfold read_or, fault. simpl.
  rewrite parsed_insert_ne by done. rewrite parsed_insert_eq. simpl.
  by rewrite (credentials_ok_spec email password).
Qed.

(** X2. Signup overwrites. With no storage fault pending, signing up a
    second account leaves the device exactly as signing up that account
    alone would: the stored record is the second one, and nothing of the
    first remains. *)
Theorem signup_overwrites_previous_account (first second : jsval) (w : World) :
  faults w = [] ->
  (await _ <- saveUserData first; saveUserData second) w = saveUserData second w
  /\ fst ((await _ <- saveUserData first;
           await _ <- saveUserData second;
           getUserData) w) = Normal second.
Proof.
  intros Hq.
  assert (Hboth : (await _ <- saveUserData first; saveUserData second) w
                  = saveUserData second w).
  { erewrite bind_Normal by by apply saveUserData_quiet.
    rewrite !saveUserData_quiet by done. simpl. do 2 f_equal.
    apply map_eq. intros key. rewrite !lookup_insert.
    by repeat case_decide. }
  split; [done|].
  erewrite bind_Normal by by apply saveUserData_quiet.
  erewrite bind_Normal by by apply saveUserData_quiet.
  rewrite getUserData_run. simpl. unfold read_or, fault. simpl.
  rewrite parsed_insert_ne by done. by rewrite parsed_insert_eq.
Qed.

Lemma saver_quiet key value w :
  faults w = [] ->
  try_catch
    (await _ <- AsyncStorage.setItem key value; ret (Success tt))
    (fun error => ret (Failure (message error))) w
  = (Normal (Success tt), mkWorld (<[key := value]> (disk w)) []).
Proof. intros Hq. by rewrite saver_run, quiet_fault, quiet_commit. Qed.

Lemma read_or_quiet dflt key d :
  read_or dflt key (mkWorld d []) = default dflt (parsed key d).
Proof. done. Qed.

(** X3. Each saver is read back by its reader. With no storage fault
    pending, [getSettings] after [saveSettings v] resolves to [v],
    [getFavorites] after [saveFavorites v] to [v], and [getUserData] after
    [saveUserData v] to [v], for every value [v], whatever was stored
    before. *)
Theorem savers_are_read_back (v : jsval) (w : World) :
  faults w = [] ->
  fst ((await _ <- saveSettings v; getSettings) w) = Normal v
  /\ fst ((await _ <- saveFavorites v; getFavorites) w) = Normal v
  /\ fst ((await _ <- saveUserData v; getUserData) w) = Normal v.
Proof.
  intros Hq. split; [|split].
  - unfold saveSettings. erewrite bind_Normal by by apply saver_quiet.
    by rewrite getSettings_run, read_or_quiet, parsed_insert_eq.
  - unfold saveFavorites. erewrite bind_Normal by by apply saver_quiet.
    by rewrite getFavorites_run, read_or_quiet, parsed_insert_eq.
  - erewrite bind_Normal by by apply saveUserData_quiet.
    rewrite getUserData_run, read_or_quiet.
    rewrite parsed_insert_ne by done. by rewrite parsed_insert_eq.
Qed.

Lemma clearAllData_run w :
  clearAllData w
  = match fault w with
    | Some msg => (Normal (Failure msg), tick w)
    | None =>
        (Normal (Success tt),
         commit (foldr delete (disk w)
                   [KEYS.USER; KEYS.FAVORITES; KEYS.SETTINGS; KEYS.IS_LOGGED_IN]) w)
    end.
Proof.
  unfold clearAllData, try_catch, bind, AsyncStorage.multiRemove.
  by destruct (fault w).
Qed.

Lemma parsed_absent key d : d !! key = None -> parsed key d = None.
Proof. unfold parsed. by intros ->. Qed.

Lemma read_or_absent dflt key w : disk w !! key = None -> read_or dflt key w = dflt.
Proof.
  intros H. unfold read_or. rewrite (parsed_absent _ _ H). by destruct (fault w).
Qed.

(** X4. [clearAllData] resets the device. When its one storage call goes
    through it succeeds, the four keys of the application are gone and
    every other key is as it was; from then on the readers resolve to
    their defaults and no credentials are accepted. When the call is
    rejected it reports the failure and the disk is as it was. *)
Theorem clearAllData_resets_device (w : World) :
  (forall msg, fault w = Some msg ->
     clearAllData w = (Normal (Failure msg), tick w))
  /\ (fault w = None ->
      exists w',
        clearAllData w = (Normal (Success tt), w')
        /\ (forall key,
              key ∈ [KEYS.USER; KEYS.FAVORITES; KEYS.SETTINGS; KEYS.IS_LOGGED_IN] ->
              disk w' !! key = None)
        /\ (forall key,
              key ∉ [KEYS.USER; KEYS.FAVORITES; KEYS.SETTINGS; KEYS.IS_LOGGED_IN] ->
              disk w' !! key = disk w !! key)
        /\ fst (getSettings w') = Normal (settings_object false true)
        /\ fst (getFavorites w') = Normal (VArr [])
        /\ fst (getUserData w') = Normal VNull
        /\ fst (checkLoginStatus w') = Normal false
        /\ (forall email password,
              fst (validateUser email password w')
              = Normal (Failure "Invalid email or password"))).
Proof.
  rewrite clearAllData_run. split.
  - by intros msg ->.
  - intros ->. eexists. split; [done|].
    assert (Hgone : forall key,
               key ∈ [KEYS.USER; KEYS.FAVORITES; KEYS.SETTINGS; KEYS.IS_LOGGED_IN] ->
               foldr delete (disk w)
                 [KEYS.USER; KEYS.FAVORITES; KEYS.SETTINGS; KEYS.IS_LOGGED_IN] !! key
               = None).
    { intros key Hkey. simpl. rewrite !lookup_delete.
      rewrite !elem_of_cons, elem_of_nil in Hkey.
      destruct Hkey as [->|[->|[->|[->|[]]]]]; by repeat case_decide. }
    split; [exact Hgone|]. split.
    { intros key Hkey. simpl. rewrite !lookup_delete.
      rewrite !elem_of_cons, elem_of_nil in Hkey.
      repeat case_decide; try done; exfalso; apply Hkey; subst; tauto. }
    split; [rewrite getSettings_run; simpl; apply f_equal, read_or_absent, Hgone;
            repeat constructor|].
    split; [rewrite getFavorites_run; simpl; apply f_equal, read_or_absent, Hgone;
            repeat constructor|].
    split; [rewrite getUserData_run; simpl; apply f_equal, read_or_absent, Hgone;
            repeat constructor|].
    split.
    + rewrite checkLoginStatus_run. simpl.
      destruct (fault _); [done|]. simpl in *.
      rewrite bool_decide_eq_false_2; [done|]. rewrite Hgone by repeat constructor. done.
    + intros email password. rewrite validateUser_run. simpl.
      rewrite read_or_absent by (apply Hgone; repeat constructor). done.
Qed.

(** X5. [logoutUser] clears the login flag and nothing else. When its
    write goes through, the flag reads ["false"], the next login check
    answers false, and [validateUser] answers as it would have without the
    logout: the account can log in again. When the write is rejected the
    failure is reported and the disk is as it was. *)
Theorem logoutUser_clears_flag_only (w : World) :
  (forall msg, fault w = Some msg ->
     logoutUser w = (Normal (Failure msg), tick w))
  /\ (fault w = None ->
      exists w',
        logoutUser w = (Normal (Success tt), w')
        /\ disk w' = <[KEYS.IS_LOGGED_IN := "false"]> (disk w)
        /\ fst (checkLoginStatus w') = Normal false
        /\ (forall email password,
              fst (validateUser email password w')
              = fst (validateUser email password (tick w)))).
Proof.
  unfold logoutUser. rewrite saver_run. split.
  - by intros msg ->.
  - intros ->. eexists. split; [done|]. split; [done|]. split.
    + rewrite checkLoginStatus_run. simpl.
      change (fault (commit _ w)) with (fault (tick w)).
      destruct (fault (tick w)); [done|]. simpl. by rewrite lookup_insert_eq.
    + intros email password. rewrite !validateUser_run. simpl.
      unfold read_or. change (fault (commit _ w)) with (fault (tick w)).
      destruct (fault (tick w)); [done|]. simpl.
      by rewrite parsed_insert_ne.
Qed.

(** *** Computations that make no storage call *)

Lemma no_io_ret {A} (a : A) : no_io (ret a).
Proof. done. Qed.

Lemma no_io_throw {A} e : no_io (@throw A e).
Proof. done. Qed.

Lemma no_io_bind {A B} (m : Async A) (k : A -> Async B) :
  no_io m -> (forall a, no_io (k a)) -> no_io (bind m k).
Proof.
  intros Hm Hk w. unfold bind. specialize (Hm w).
  destruct (m w) as [[a|e] w1]; simpl in *; subst; [apply Hk|done].
Qed.

Lemma no_io_member v k : no_io (member v k).
Proof. by destruct v. Qed.

Lemma no_io_as_array v : no_io (as_array v).
Proof. by destruct v. Qed.

Lemma no_io_Array_find f l : (forall x, no_io (f x)) -> no_io (Array_find f l).
Proof.
  intros Hf. induction l as [|x l IH]; [done|].
  apply no_io_bind; [apply Hf|]. by intros [].
Qed.

Lemma no_io_Array_filter f l : (forall x, no_io (f x)) -> no_io (Array_filter f l).
Proof.
  intros Hf. induction l as [|x l IH]; [done|].
  apply no_io_bind; [apply Hf|]. intros b.
  apply no_io_bind; [apply IH|]. by intros ?.
Qed.

Lemma no_io_Array_some f l : (forall x, no_io (f x)) -> no_io (Array_some f l).
Proof.
  intros Hf. induction l as [|x l IH]; [done|].
  apply no_io_bind; [apply Hf|]. by intros [].
Qed.

Lemma no_io_run {A} (m : Async A) w :
  no_io m -> exists c, m w = (c, w).
Proof. intros H. specialize (H w). destruct (m w) as [c w1]. simpl in H. subst. by eexists. Qed.

(** A [try] whose [catch] returns a value resolves, in the world the
    body left. *)
Lemma try_catch_resolves {A} (body : Async A) (h : exn -> A) w :
  exists a, try_catch body (fun e => ret (h e)) w = (Normal a, snd (body w)).
Proof. unfold try_catch. destruct (body w) as [[a|e] w1]; by eexists. Qed.

Lemma isInFavorites_world postId w :
  exists b, isInFavorites postId w = (Normal b, tick w).
Proof.
  unfold isInFavorites.
  destruct (try_catch_resolves
              (await favorites <- getFavorites;
               await items <- as_array favorites;
               Array_some (id_is (Some postId)) items)
              (fun _ => false) w) as [b Hb].
  exists b. rewrite Hb. f_equal.
  erewrite bind_Normal by apply getFavorites_run.
  apply no_io_bind; [apply no_io_as_array|].
  intros items. apply no_io_Array_some. intros x.
  apply no_io_bind; [apply no_io_member|]. by intros ?.
Qed.

(** X6. Reading never writes. In every world, whatever the disk holds
    and whatever faults are pending, each reader of the storage module,
    [validateUser] and [isInFavorites] included, resolves rather than
    rejects, makes exactly one storage call and leaves the disk as it
    was. *)
Theorem readers_resolve_and_never_write
    (email password : string) (postId : jsval) (w : World) :
  (exists v, getUserData w = (Normal v, tick w))
  /\ (exists v, getFavorites w = (Normal v, tick w))
  /\ (exists v, getSettings w = (Normal v, tick w))
  /\ (exists b, checkLoginStatus w = (Normal b, tick w))
  /\ (exists r, validateUser email password w = (Normal r, tick w))
  /\ (exists b, isInFavorites postId w = (Normal b, tick w))
  /\ disk (tick w) = disk w.
Proof.
  rewrite getUserData_run, getFavorites_run, getSettings_run,
    checkLoginStatus_run, validateUser_run.
  repeat (split; [by eexists|]). split; [apply isInFavorites_world|done].
Qed.

Lemma no_io_eq {A} (m : Async A) w c w1 : no_io m -> m w = (c, w1) -> w1 = w.
Proof. intros H Hm. specialize (H w). by rewrite Hm in H. Qed.

(** What holds of the world a sequence leaves, from what holds after
    each way its first part can end. *)
Lemma bind_world {A B} (m : Async A) (k : A -> Async B) w (P : World -> Prop) :
  (forall a w1, m w = (Normal a, w1) -> P (snd (k a w1))) ->
  (forall e w1, m w = (Throw e, w1) -> P w1) ->
  P (snd (bind m k w)).
Proof.
  intros Hn Ht. unfold bind.
  destruct (m w) as [[a|e] w1] eqn:Hm; [by apply Hn|by apply (Ht e)].
Qed.

Lemma favorites_step_save v w0 w w1 (r : completion (result unit)) :
  saveFavorites v (tick w) = (r, w1) ->
  favorites_step w0 (tick w) -> tick w = tick w0 ->
  favorites_step w0 w1.
Proof.
  intros Hsave _ Hw. destruct (saveFavorites_world v (tick w)) as [r' Hr'].
  rewrite Hr' in Hsave. injection Hsave as _ <-. right. exists v. by rewrite Hw.
Qed.

(** The world a favorites operation leaves: one read, and at most one
    write of the favorites key. *)
Lemma run_op_world op w :
  exists r w', run_op op w = (Normal r, w') /\ favorites_step w w'.
Proof.
  destruct op as [post|postId]; simpl.
  - unfold addToFavorites.
    match goal with
    | |- context [try_catch ?body _] =>
        destruct (try_catch_resolves body (fun e => Failure (message e)) w) as [r Hr];
        exists r, (snd (body w))
    end.
    split; [exact Hr|]. clear Hr.
    apply bind_world; [|by intros e w1; rewrite getFavorites_run].
    intros favorites w1. rewrite getFavorites_run. intros [= <- <-].
    apply bind_world;
      [|intros e w1 ->%(no_io_eq _ _ _ _ (no_io_as_array _)); by left].
    intros items w1 ->%(no_io_eq _ _ _ _ (no_io_as_array _)).
    assert (Hfind : forall l,
               no_io (Array_find
                        (fun item =>
                           await item_id <- member item "id";
                           await post_id <- member post "id";
                           ret (strict_eq item_id post_id)) l)).
    { intros l. apply no_io_Array_find. intros x.
      apply no_io_bind; [apply no_io_member|]. intros ?.
      apply no_io_bind; [apply no_io_member|]. by intros ?. }
    apply bind_world; [|intros e w1 ->%(no_io_eq _ _ _ _ (Hfind _)); by left].
    intros found w1 ->%(no_io_eq _ _ _ _ (Hfind _)).
    destruct (negb (truthy_opt found)); [|by left].
    apply bind_world.
    + intros a w1 Hsave. simpl. eapply favorites_step_save; [exact Hsave|by left|done].
    + intros e w1 Hsave. eapply favorites_step_save; [exact Hsave|by left|done].
  - unfold removeFromFavorites.
    match goal with
    | |- context [try_catch ?body _] =>
        destruct (try_catch_resolves body (fun e => Failure (message e)) w) as [r Hr];
        exists r, (snd (body w))
    end.
    split; [exact Hr|]. clear Hr.
    apply bind_world; [|by intros e w1; rewrite getFavorites_run].
    intros favorites w1. rewrite getFavorites_run. intros [= <- <-].
    apply bind_world;
      [|intros e w1 ->%(no_io_eq _ _ _ _ (no_io_as_array _)); by left].
    intros items w1 ->%(no_io_eq _ _ _ _ (no_io_as_array _)).
    assert (Hfilter : forall l,
               no_io (Array_filter
                        (fun item =>
                           await item_id <- member item "id";
                           ret (negb (strict_eq item_id (Some postId)))) l)).
    { intros l. apply no_io_Array_filter. intros x.
      apply no_io_bind; [apply no_io_member|]. by intros ?. }
    apply bind_world; [|intros e w1 ->%(no_io_eq _ _ _ _ (Hfilter _)); by left].
    intros kept w1 ->%(no_io_eq _ _ _ _ (Hfilter _)).
    apply bind_world.
    + intros a w1 Hsave. simpl. eapply favorites_step_save; [exact Hsave|by left|done].
    + intros e w1 Hsave. eapply favorites_step_save; [exact Hsave|by left|done].
Qed.

Lemma write_favorites_other v w key :
  key <> KEYS.FAVORITES -> disk (write_favorites v w) !! key = disk w !! key.
Proof.
  intros Hne. unfold write_favorites. destruct (fault w); [done|].
  simpl. by rewrite lookup_insert_ne.
Qed.

(** X7. Favorites operations touch only the favorites. In every world,
    for every argument, whatever the disk holds and whatever faults are
    pending, [addToFavorites] and [removeFromFavorites] resolve rather
    than reject, and every key other than the favorites key holds what it
    held. *)
Theorem favorites_ops_touch_only_favorites (op : fav_op) (w : World) :
  exists r w',
    run_op op w = (Normal r, w')
    /\ forall key, key <> KEYS.FAVORITES -> disk w' !! key = disk w !! key.
Proof.
  destruct (run_op_world op w) as (r & w' & Hrun & [->|[v ->]]);
    exists r; eexists; (split; [exact Hrun|]); intros key Hne; [done|].
  by rewrite write_favorites_other.
Qed.

Lemma isInFavorites_quiet postId l w :
  faults w = [] -> stored_favorites (disk w) = VArr l -> Forall not_null l ->
  isInFavorites postId w = (Normal (existsb (has_id (Some postId)) l), w).
Proof.
  intros Hq Hl Hnn. unfold isInFavorites. apply try_catch_Normal.
  erewrite bind_Normal by apply getFavorites_run.
  rewrite quiet_read, Hl, quiet_tick by done.
  erewrite bind_Normal by reflexivity.
  by apply Array_some_run.
Qed.

Lemma existsb_filter_out (f : jsval -> bool) l :
  existsb f (List.filter (fun item => negb (f item)) l) = false.
Proof.
  induction l as [|x l IH]; [done|]. simpl.
  destruct (f x) eqn:Hx; simpl; [done|]. by rewrite Hx.
Qed.

Lemma filter_out_snoc (f : jsval -> bool) l x :
  f x = true ->
  List.filter (fun item => negb (f item)) (l ++ [x])
  = List.filter (fun item => negb (f item)) l.
Proof.
  intros Hx. rewrite List.filter_app. simpl. rewrite Hx. simpl. apply app_nil_r.
Qed.

Lemma filter_comm {A} (f g : A -> bool) l :
  List.filter f (List.filter g l) = List.filter g (List.filter f l).
Proof.
  induction l as [|x l IH]; [done|]. simpl.
  destruct (f x) eqn:Hf, (g x) eqn:Hg; simpl; rewrite ?Hf, ?Hg, IH; done.
Qed.

(** The stored list a quiet [addToFavorites] leaves. *)
Lemma addToFavorites_stored post l w :
  faults w = [] -> stored_favorites (disk w) = VArr l ->
  Forall (fun item => is_post item = true) l -> is_post post = true ->
  exists w',
    addToFavorites post w = (Normal (Success tt), w')
    /\ faults w' = []
    /\ stored_favorites (disk w')
       = VArr (if existsb (has_id (field "id" post)) l then l else l ++ [post]).
Proof.
  intros Hq Hl Hposts Hpost. rewrite (addToFavorites_quiet post l w) by done.
  destruct (existsb (has_id (field "id" post)) l); eexists; (split; [done|]).
  - done.
  - split; [done|]. apply stored_favorites_insert.
Qed.

(** X8. Membership follows the updates. With no storage fault pending
    and a stored list of posts, [isInFavorites] answers true for a post's
    id right after [addToFavorites] of that post, and false for an id right
    after [removeFromFavorites] of that id. *)
Theorem isInFavorites_follows_updates
    (post : jsval) (n : Z) (l : list jsval) (w : World) :
  faults w = [] ->
  stored_favorites (disk w) = VArr l ->
  Forall (fun item => is_post item = true) l ->
  field "id" post = Some (VNum n) ->
  fst ((await _ <- addToFavorites post; isInFavorites (VNum n)) w) = Normal true
  /\ fst ((await _ <- removeFromFavorites (VNum n); isInFavorites (VNum n)) w)
     = Normal false.
Proof.
  intros Hq Hl Hposts Hid.
  assert (Hpost : is_post post = true) by (unfold is_post; by rewrite Hid).
  split.
  - destruct (addToFavorites_stored post l w Hq Hl Hposts Hpost)
      as (w' & Hrun & Hq' & Hl').
    erewrite bind_Normal by exact Hrun.
    erewrite isInFavorites_quiet; [|done|exact Hl'|].
    + simpl. f_equal. rewrite <- Hid.
      destruct (existsb (has_id (field "id" post)) l) eqn:Hex; [done|].
      rewrite existsb_app. simpl. unfold has_id at 2. rewrite Hid. simpl.
      rewrite Z.eqb_refl. by rewrite orb_true_r.
    + apply posts_not_null. destruct (existsb _ l); [done|].
      apply Forall_app. split; [done|]. by constructor.
  - erewrite bind_Normal
      by (apply removeFromFavorites_quiet; [done|exact Hl|by apply posts_not_null]).
    erewrite isInFavorites_quiet;
      [|done|apply stored_favorites_insert|by apply filter_Forall, posts_not_null].
    simpl. f_equal. apply existsb_filter_out.
Qed.

(** X9. Adding a post and then removing its id leaves the stored list
    without any entry of that id; when no entry had the id before, the
    stored list is again what it was. *)
Theorem add_then_remove_restores
    (post : jsval) (n : Z) (l : list jsval) (w : World) :
  faults w = [] ->
  stored_favorites (disk w) = VArr l ->
  Forall (fun item => is_post item = true) l ->
  field "id" post = Some (VNum n) ->
  exists w',
    (await _ <- addToFavorites post; removeFromFavorites (VNum n)) w
    = (Normal (Success tt), w')
    /\ stored_favorites (disk w')
       = VArr (List.filter (fun item => negb (has_id (Some (VNum n)) item)) l)
    /\ ((forall item, item ∈ l -> field "id" item <> Some (VNum n)) ->
        stored_favorites (disk w') = VArr l).
Proof.
  intros Hq Hl Hposts Hid.
  assert (Hpost : is_post post = true) by (unfold is_post; by rewrite Hid).
  destruct (addToFavorites_stored post l w Hq Hl Hposts Hpost)
    as (w1 & Hrun & Hq1 & Hl1).
  assert (Hkept :
            List.filter (fun item => negb (has_id (Some (VNum n)) item))
              (if existsb (has_id (field "id" post)) l then l else l ++ [post])
            = List.filter (fun item => negb (has_id (Some (VNum n)) item)) l).
  { destruct (existsb _ l); [done|]. apply filter_out_snoc.
    unfold has_id. rewrite Hid. simpl. apply Z.eqb_refl. }
  eexists. split; [|split].
  - erewrite bind_Normal by exact Hrun.
    apply removeFromFavorites_quiet; [done|exact Hl1|].
    apply posts_not_null. destruct (existsb _ l); [done|].
    apply Forall_app. split; [done|]. by constructor.
  - simpl. by rewrite stored_favorites_insert, Hkept.
  - intros Hfresh. simpl. rewrite stored_favorites_insert, Hkept. f_equal.
    apply filter_all. intros item Hin. apply negb_true_iff.
    destruct (has_id (Some (VNum n)) item) eqn:Hhas; [|done].
    apply has_id_num in Hhas. by apply Hfresh in Hin.
Qed.

(** X10. Removals commute. With no storage fault pending and a stored
    list without [null] entries, removing two ids in either order gives
    the same result and leaves the same disk. *)
Theorem removals_commute (a b : jsval) (l : list jsval) (w : World) :
  faults w = [] ->
  stored_favorites (disk w) = VArr l ->
  Forall not_null l ->
  (await _ <- removeFromFavorites a; removeFromFavorites b) w
  = (await _ <- removeFromFavorites b; removeFromFavorites a) w.
Proof.
  intros Hq Hl Hnn.
  pose proof (removeFromFavorites_quiet a l w Hq Hl Hnn) as Ha.
  pose proof (removeFromFavorites_quiet b l w Hq Hl Hnn) as Hb.
  rewrite (bind_Normal _ _ _ _ _ Ha), (bind_Normal _ _ _ _ _ Hb).
  rewrite (removeFromFavorites_quiet b
             (List.filter (fun item => negb (has_id (Some a) item)) l));
    [|done|apply stored_favorites_insert|by apply filter_Forall].
  rewrite (removeFromFavorites_quiet a
             (List.filter (fun item => negb (has_id (Some b) item)) l));
    [|done|apply stored_favorites_insert|by apply filter_Forall].
  simpl. rewrite !insert_insert_eq. by rewrite filter_comm.
Qed.

(** X11. Stored favorites that are not a list. When the read goes
    through and the stored string parses to a value that is not an array,
    [addToFavorites] and [removeFromFavorites] resolve to a failure result
    after that one read, leaving the disk as it was, and [isInFavorites]
    answers false. *)
Theorem favorites_not_a_list (v post postId : jsval) (w : World) :
  fault w = None ->
  parsed KEYS.FAVORITES (disk w) = Some v ->
  (forall l, v <> VArr l) ->
  (exists msg, addToFavorites post w = (Normal (Failure msg), tick w))
  /\ (exists msg, removeFromFavorites postId w = (Normal (Failure msg), tick w))
  /\ isInFavorites postId w = (Normal false, tick w).
Proof.
  intros Hf Hv Hna.
  assert (Hread : getFavorites w = (Normal v, tick w)).
  { rewrite getFavorites_run. unfold read_or. by rewrite Hf, Hv. }
  assert (Hthrow : exists e, forall w1, as_array v w1 = (Throw e, w1)).
  { destruct v; try (by eexists); by destruct (Hna items). }
  destruct Hthrow as [e He].
  unfold addToFavorites, removeFromFavorites, isInFavorites, try_catch.
  rewrite !(bind_Normal _ _ _ _ _ Hread). unfold bind. rewrite !He.
  repeat split; by eexists.
Qed.

(** X12. The favorites screen shows what is stored. With no storage
    fault pending, after the Remove button's handler has run the shown
    list is the value stored under the favorites key and the screen is
    neither loading nor refreshing, whatever the disk held and whatever
    id was removed. *)
Theorem handleRemove_shows_stored (postId : jsval) (view : FavoritesView) (w : World) :
  faults w = [] ->
  exists w',
    handleRemove postId view w
    = (Normal (mkFavoritesView (stored_favorites (disk w')) false false), w')
    /\ faults w' = [].
Proof.
  intros Hq. unfold handleRemove, loadFavorites.
  destruct (run_op_world (Remove postId) w) as (r & w1 & Hrun & Hstep).
  simpl in Hrun. erewrite bind_Normal by exact Hrun.
  assert (Hq1 : faults w1 = []).
  { destruct Hstep as [->|[v ->]]; [by rewrite quiet_tick|].
    by rewrite quiet_tick, quiet_write. }
  exists w1. split; [|done].
  erewrite bind_Normal.
  2:{ apply try_catch_Normal. erewrite bind_Normal by apply getFavorites_run.
      reflexivity. }
  by rewrite quiet_read, quiet_tick.
Qed.

(** ** Properties of the session and settings store *)

Lemma flipped_S n b : flipped (S n) b = flipped n (negb b).
Proof.
  unfold flipped. rewrite Nat.even_succ, <- Nat.negb_even.
  by destruct (Nat.even n), b.
Qed.

Lemma run_toggle_quiet t st w :
  faults w = [] ->
  run_toggle t st w
  = (Normal (press t st),
     mkWorld (<[KEYS.SETTINGS :=
                  JSON_stringify
                    (settings_object (darkMode (press t st))
                                     (notificationsEnabled (press t st)))]> (disk w)) []).
Proof.
  intros Hq. destruct t; simpl; unfold toggleDarkMode, toggleNotifications;
    (erewrite bind_Normal by (unfold saveSettings; by apply saver_quiet)); done.
Qed.

Lemma run_toggles_quiet ts st w :
  faults w = [] ->
  exists st' w',
    run_toggles ts st w = (Normal st', w')
    /\ faults w' = []
    /\ darkMode st' = flipped (presses DarkMode ts) (darkMode st)
    /\ notificationsEnabled st'
       = flipped (presses Notifications ts) (notificationsEnabled st)
    /\ isLoggedIn st' = isLoggedIn st
    /\ user st' = user st
    /\ isLoading st' = isLoading st
    /\ (ts <> [] ->
        parsed KEYS.SETTINGS (disk w')
        = Some (settings_object (darkMode st') (notificationsEnabled st')))
    /\ (forall key, key <> KEYS.SETTINGS -> disk w' !! key = disk w !! key).
Proof.
  revert st w. induction ts as [|t rest IH]; intros st w Hq.
  - exists st, w. by repeat split.
  - pose proof (run_toggle_quiet t st w Hq) as Hstep.
    match type of Hstep with
    | _ = (_, ?w1) =>
        destruct (IH (press t st) w1 eq_refl)
          as (st' & w' & Hrun & Hq' & Hd & Hn & Hl & Hu & Hld & Hset & Hother)
    end.
    exists st', w'. split; [simpl; by erewrite bind_Normal by exact Hstep|].
    split; [done|].
    split.
    { rewrite Hd. destruct t; unfold presses; simpl; [|done].
      fold (presses DarkMode rest). by rewrite flipped_S. }
    split.
    { rewrite Hn. destruct t; unfold presses; simpl; [done|].
      fold (presses Notifications rest). by rewrite flipped_S. }
    split; [rewrite Hl; by destruct t|].
    split; [rewrite Hu; by destruct t|].
    split; [rewrite Hld; by destruct t|].
    split.
    + intros _. destruct rest as [|t' rest']; [|by apply Hset].
      simpl in Hrun. injection Hrun as <- <-. simpl. apply parsed_insert_eq.
    + intros key Hne. rewrite Hother by done. simpl. by rewrite lookup_insert_ne.
Qed.

(** X13. The stored settings follow the switches. With no storage fault
    pending, after any run of presses of the two switches each setting is
    negated once per press of its switch (so an even number of presses
    restores it), the login state and the user are as they were, and,
    when at least one switch was pressed, the stored settings are those in
    memory; no key but the settings key is written. *)
Theorem settings_follow_the_switches (ts : list toggle) (st : AppState) (w : World) :
  faults w = [] ->
  exists st' w',
    run_toggles ts st w = (Normal st', w')
    /\ darkMode st' = flipped (presses DarkMode ts) (darkMode st)
    /\ notificationsEnabled st'
       = flipped (presses Notifications ts) (notificationsEnabled st)
    /\ isLoggedIn st' = isLoggedIn st
    /\ user st' = user st
    /\ (ts <> [] ->
        parsed KEYS.SETTINGS (disk w')
        = Some (settings_object (darkMode st') (notificationsEnabled st')))
    /\ (forall key, key <> KEYS.SETTINGS -> disk w' !! key = disk w !! key).
Proof.
  intros Hq.
  destruct (run_toggles_quiet ts st w Hq)
    as (st' & w' & Hrun & _ & Hd & Hn & Hl & Hu & _ & Hset & Hother).
  by exists st', w'.
Qed.

Lemma checkLoginStatus_flag w : checkLoginStatus w = (Normal (login_flag w), tick w).
Proof. apply checkLoginStatus_run. Qed.

(** [loadInitialData] on settings that are not [null]. *)
Lemma loadInitialData_run st w :
  read_or (settings_object false true) KEYS.SETTINGS w <> VNull ->
  loadInitialData st w
  = let st2 :=
      hydrate_settings (read_or (settings_object false true) KEYS.SETTINGS w) st in
    if login_flag (tick w)
    then (Normal (p_setIsLoading false
                    (p_setUser (read_or VNull KEYS.USER (tick (tick w)))
                               (p_setIsLoggedIn true st2))),
          tick (tick (tick w)))
    else (Normal (p_setIsLoading false (p_setIsLoggedIn false st2)), tick (tick w)).
Proof.
  intros Hs. unfold loadInitialData.
  set (s := read_or (settings_object false true) KEYS.SETTINGS w) in *.
  cbv zeta.
  destruct (login_flag (tick w)) eqn:Hflag.
  - erewrite bind_Normal; [reflexivity|].
    apply try_catch_Normal.
    erewrite bind_Normal by apply getSettings_run. fold s.
    erewrite bind_Normal by (by apply member_field).
    apply try_catch_Normal.
    erewrite bind_Normal by (by apply member_field).
    apply try_catch_Normal.
    erewrite bind_Normal by apply checkLoginStatus_flag. rewrite Hflag.
    apply try_catch_Normal.
    by erewrite bind_Normal by apply getUserData_run.
  - erewrite bind_Normal; [reflexivity|].
    apply try_catch_Normal.
    erewrite bind_Normal by apply getSettings_run. fold s.
    erewrite bind_Normal by (by apply member_field).
    apply try_catch_Normal.
    erewrite bind_Normal by (by apply member_field).
    apply try_catch_Normal.
    erewrite bind_Normal by apply checkLoginStatus_flag. rewrite Hflag.
    by apply try_catch_Normal.
Qed.

(** [loadInitialData] on settings that are [null]. *)
Lemma loadInitialData_null st w :
  read_or (settings_object false true) KEYS.SETTINGS w = VNull ->
  loadInitialData st w = (Normal (p_setIsLoading false st), tick w).
Proof.
  intros Hs. unfold loadInitialData.
  erewrite bind_Normal; [reflexivity|].
  unfold try_catch at 1.
  erewrite bind_Normal by apply getSettings_run. rewrite Hs.
  reflexivity.
Qed.

(** X14. Launch always finishes loading and never writes. In every
    world, whatever the disk holds and whatever faults are pending,
    [loadInitialData] resolves rather than rejects, ends with [isLoading]
    false, and leaves the disk as it was. *)
Theorem loadInitialData_always_finishes (st : ProviderState) (w : World) :
  exists st' w',
    loadInitialData st w = (Normal st', w')
    /\ p_isLoading st' = false
    /\ disk w' = disk w.
Proof.
  assert (Hcases : read_or (settings_object false true) KEYS.SETTINGS w = VNull
                   \/ read_or (settings_object false true) KEYS.SETTINGS w <> VNull)
    by (destruct (read_or _ KEYS.SETTINGS w); (by left) || (by right)).
  destruct Hcases as [Hnull|Hs].
  - rewrite loadInitialData_null by done. by eexists _, _.
  - rewrite loadInitialData_run by done. cbv zeta.
    destruct (login_flag (tick w)); by eexists _, _.
Qed.

(** X15. Launch on a device without settings and without a login flag.
    Whatever faults are pending, [loadInitialData] sets dark mode off,
    notifications on and the session logged out, leaves the user as it
    was, and does not read the user record. *)
Theorem loadInitialData_fresh_install (st : ProviderState) (w : World) :
  disk w !! KEYS.SETTINGS = None ->
  disk w !! KEYS.IS_LOGGED_IN = None ->
  loadInitialData st w
  = (Normal (mkProviderState (VBool false) true false (p_user st) false),
     tick (tick w)).
Proof.
  intros Hs Hflag.
  rewrite loadInitialData_run; rewrite read_or_absent by done; [|done].
  cbv zeta. unfold login_flag. simpl. rewrite Hflag.
  by destruct (fault (tick w)).
Qed.

(** X16. Stored settings that are [null] stop the launch. When the
    settings key holds a string that parses to [null] and the read goes
    through, [loadInitialData] changes nothing but [isLoading]: it makes
    that one read, so the login flag is never consulted and a logged-in
    account is not restored. *)
Theorem loadInitialData_null_settings (st : ProviderState) (w : World) :
  fault w = None ->
  parsed KEYS.SETTINGS (disk w) = Some VNull ->
  loadInitialData st w = (Normal (p_setIsLoading false st), tick w).
Proof.
  intros Hf Hs. apply loadInitialData_null. unfold read_or. by rewrite Hf, Hs.
Qed.

Lemma hydrate_settings_object d n st :
  hydrate_settings (settings_object d n) st
  = p_setNotificationsEnabled n (p_setDarkMode (VBool d) st).
Proof. by destruct d, n. Qed.

(** X17. A relaunch restores the session. With no storage fault pending,
    after a signup and at least one press of a settings switch, launching
    the application again from any provider state loads exactly the state
    that was in memory: the same dark mode and notifications settings,
    logged in, with the signed-up user. *)
Theorem relaunch_restores_session
    (userData : jsval) (ts : list toggle) (st : AppState) (w : World) :
  faults w = [] ->
  ts <> [] ->
  exists st' w',
    (await _ <- saveUserData userData;
     run_toggles ts (setUserData userData st)) w = (Normal st', w')
    /\ forall launch,
         fst (loadInitialData launch w')
         = Normal (p_setIsLoading false (provider_state st')).
Proof.
  intros Hq Hts.
  pose proof (saveUserData_quiet userData w Hq) as Hsave.
  match type of Hsave with
  | _ = (_, ?w1) =>
      destruct (run_toggles_quiet ts (setUserData userData st) w1 eq_refl)
        as (st' & w' & Hrun & Hq' & Hd & Hn & Hl & Hu & Hld & Hset & Hother)
  end.
  exists st', w'. split; [by erewrite bind_Normal by exact Hsave|].
  intros launch.
  assert (Hsettings : read_or (settings_object false true) KEYS.SETTINGS w'
                      = settings_object (darkMode st') (notificationsEnabled st')).
  { unfold read_or. rewrite quiet_fault by done. by rewrite Hset. }
  assert (Hflag : login_flag (tick w') = true).
  { unfold login_flag. rewrite quiet_tick, quiet_fault by done.
    apply bool_decide_eq_true_2. rewrite Hother by done. simpl.
    by rewrite lookup_insert_eq. }
  assert (Huser : read_or VNull KEYS.USER (tick (tick w')) = userData).
  { rewrite (quiet_tick w'), (quiet_tick w') by done.
    unfold read_or. rewrite quiet_fault by done.
    unfold parsed. rewrite Hother by done. simpl.
    rewrite lookup_insert_ne by done. rewrite lookup_insert_eq.
    by rewrite JSON_stringify_nonempty, JSON_roundtrip. }
  rewrite loadInitialData_run by (by rewrite Hsettings).
  cbv zeta. rewrite Hflag, Huser, Hsettings, hydrate_settings_object. simpl.
  unfold provider_state, p_setIsLoading, p_setUser, p_setIsLoggedIn,
    p_setNotificationsEnabled, p_setDarkMode. simpl.
  by rewrite Hl, Hu.
Qed.

Lemma settings_not_null d :
  parsed KEYS.SETTINGS d <> Some VNull ->
  default (settings_object false true) (parsed KEYS.SETTINGS d) <> VNull.
Proof. destruct (parsed KEYS.SETTINGS d) as [[]|]; simpl; try done. Qed.

(** X18. The settings screen's logout does not outlast a relaunch;
    [logoutUser] does. With no storage fault pending and stored settings
    that are not [null], after a signup and the settings screen's logout
    the session in memory is logged out, yet launching again loads it
    logged in with the signed-up user; after a signup and [logoutUser],
    launching again loads it logged out. *)
Theorem logout_is_not_persisted
    (userData : jsval) (st : AppState) (routes : list string)
    (launch : ProviderState) (w : World) :
  faults w = [] ->
  parsed KEYS.SETTINGS (disk w) <> Some VNull ->
  (exists st' routes' w' loaded,
      (await _ <- saveUserData userData; handleLogout st routes) w
      = (Normal (st', routes'), w')
      /\ isLoggedIn st' = false
      /\ fst (loadInitialData launch w') = Normal loaded
      /\ p_isLoggedIn loaded = true
      /\ p_user loaded = userData)
  /\ (exists r w' loaded,
        (await _ <- saveUserData userData; logoutUser) w = (Normal r, w')
        /\ fst (loadInitialData launch w') = Normal loaded
        /\ p_isLoggedIn loaded = false).
Proof.
  intros Hq Hs.
  pose proof (saveUserData_quiet userData w Hq) as Hsave.
  split.
  - eexists _, _, _, _. split; [by erewrite bind_Normal by exact Hsave|].
    split; [done|].
    rewrite loadInitialData_run.
    + cbv zeta. unfold login_flag. simpl. rewrite lookup_insert_eq. simpl.
      split; [done|]. split; [done|]. simpl.
      unfold read_or. simpl.
      rewrite parsed_insert_ne by done. by rewrite parsed_insert_eq.
    + unfold read_or. simpl. rewrite !parsed_insert_ne by done.
      by apply settings_not_null.
  - eexists _, _, _. split.
    { erewrite bind_Normal by exact Hsave. unfold logoutUser. by apply saver_quiet. }
    rewrite loadInitialData_run.
    + cbv zeta. unfold login_flag. simpl. rewrite lookup_insert_eq. simpl. done.
    + unfold read_or. simpl. rewrite !parsed_insert_ne by done.
      by apply settings_not_null.
Qed.

(** ** Properties of the login and signup screens *)

Lemma handleLogin_run email password view ctx routes w :
  String_trim email <> "" -> password <> "" ->
  handleLogin email password view ctx routes w
  = (Normal
       (if credentials_ok (String_toLowerCase (String_trim email)) password
             (read_or VNull KEYS.USER w)
        then (mkLoginView "" false,
              setUserData (read_or VNull KEYS.USER w) ctx, ["Home"])
        else (mkLoginView "Invalid email or password" false, ctx, routes)),
     tick w).
Proof.
  intros He Hp. unfold handleLogin.
  destruct (String.eqb_spec (String_trim email) "") as [|_]; [done|].
  destruct (String.eqb_spec password "") as [|_]; [done|]. simpl.
  unfold bind at 1. unfold try_catch.
  erewrite bind_Normal by apply validateUser_run.
  by destruct (credentials_ok _ _ _).
Qed.

(** X19. Login with a blank field stops at the form. When the trimmed
    email is empty or the password is empty, [handleLogin] sets the
    both-fields message, leaves [loading], the session and the routes as
    they were, and makes no storage call at all. *)
Theorem handleLogin_blank_field
    (email password : string) (view : LoginView) (ctx : AppState)
    (routes : list string) (w : World) :
  String_trim email = "" \/ password = "" ->
  handleLogin email password view ctx routes w
  = (Normal (mkLoginView "Please enter both email and password" (login_loading view),
             ctx, routes), w).
Proof.
  intros Hblank. unfold handleLogin.
  destruct (String.eqb_spec (String_trim email) "") as [|He]; [done|].
  destruct (String.eqb_spec password "") as [|Hp]; [done|].
  by destruct Hblank.
Qed.

(** X20. Login enters the session only on matching credentials. With
    both fields filled, [handleLogin] makes one storage read and ends with
    [loading] false; the routes become the Home route and the session
    becomes logged in exactly when the read went through and the stored
    record's [email] is the trimmed, lower-cased input and its [password]
    the input, the session user then being that record; otherwise the
    session and routes are as they were and the message is the
    invalid-credentials one. *)
Theorem handleLogin_outcome
    (email password : string) (view : LoginView) (ctx : AppState)
    (routes : list string) (w : World) :
  String_trim email <> "" -> password <> "" ->
  exists view' ctx' routes',
    handleLogin email password view ctx routes w = (Normal (view', ctx', routes'), tick w)
    /\ login_loading view' = false
    /\ ((exists u,
           fault w = None
           /\ parsed KEYS.USER (disk w) = Some u
           /\ field "email" u = Some (VStr (String_toLowerCase (String_trim email)))
           /\ field "password" u = Some (VStr password)
           /\ ctx' = setUserData u ctx /\ routes' = ["Home"]
           /\ login_error view' = "")
        \/ (ctx' = ctx /\ routes' = routes
            /\ login_error view' = "Invalid email or password"
            /\ ~ (exists u,
                    fault w = None
                    /\ parsed KEYS.USER (disk w) = Some u
                    /\ field "email" u
                       = Some (VStr (String_toLowerCase (String_trim email)))
                    /\ field "password" u = Some (VStr password)))).
Proof.
  intros He Hp. rewrite handleLogin_run by done.
  unfold credentials_ok.
  destruct (truthy (read_or VNull KEYS.USER w)
            && strict_eq (field "email" (read_or VNull KEYS.USER w))
                 (Some (VStr (String_toLowerCase (String_trim email))))
            && strict_eq (field "password" (read_or VNull KEYS.USER w))
                 (Some (VStr password))) eqn:Hok.
  - eexists _, _, _. split; [done|]. split; [done|]. left.
    apply andb_true_iff in Hok as [[Ht Hem]%andb_true_iff Hpw].
    apply strict_eq_str in Hem, Hpw.
    exists (read_or VNull KEYS.USER w).
    unfold read_or in *. destruct (fault w); [done|].
    destruct (parsed KEYS.USER (disk w)); [|done]. by repeat split.
  - eexists _, _, _. split; [done|]. split; [done|]. right.
    repeat split. intros (u & Hf & Hu & Hem & Hpw).
    unfold read_or in Hok. rewrite Hf, Hu in Hok. simpl in Hok.
    rewrite Hem, Hpw in Hok. simpl in Hok. rewrite !String.eqb_refl in Hok.
    destruct u; simpl in *; congruence.
Qed.

Lemma validateForm_valid username email password :
  fst (validateForm username email password) = true
  <-> String_trim username <> ""
      /\ String_trim email <> ""
      /\ email_pattern_test email = true
      /\ password <> ""
      /\ (6 <= String_length password)%nat.
Proof.
  unfold validateForm.
  destruct (String.eqb_spec (String_trim username) "");
    destruct (String.eqb_spec (String_trim email) "");
    destruct (email_pattern_test email);
    destruct (String.eqb_spec password "");
    destruct (Nat.ltb_spec (String_length password) 6); simpl;
    split; try done; try (intros (? & ? & ? & ? & ?); done || lia);
    intros _; repeat split; done || lia.
Qed.

(** X21. The signup form's verdict and its messages agree. [validateForm]
    answers valid exactly when it sets no message at all, and exactly
    when the trimmed username and the trimmed email are not empty, the
    email passes the pattern, and the password has at least six
    characters. *)
Theorem validateForm_verdict (username email password : string) :
  (fst (validateForm username email password) = true
   <-> snd (validateForm username email password) = mkSignupErrors "" "" "")
  /\ (fst (validateForm username email password) = true
      <-> String_trim username <> ""
          /\ String_trim email <> ""
          /\ email_pattern_test email = true
          /\ password <> ""
          /\ (6 <= String_length password)%nat).
Proof.
  split; [|apply validateForm_valid].
  unfold validateForm.
  destruct (String.eqb (String_trim username) "");
    destruct (String.eqb (String_trim email) "");
    destruct (email_pattern_test email);
    destruct (String.eqb password "");
    destruct (String_length password <? 6)%nat; simpl; split; done.
Qed.

(** X22. An invalid signup form writes nothing. When [validateForm]
    rejects the form, [handleSignup] only sets the field messages: no
    storage call is made, no alert is raised, and the session is as it
    was. *)
Theorem handleSignup_invalid_form
    (username email password : string) (view : SignupView) (ctx : AppState)
    (w : World) :
  fst (validateForm username email password) = false ->
  handleSignup username email password view ctx w
  = (Normal (signup_setErrors (snd (validateForm username email password)) view, ctx),
     w)
  /\ snd (validateForm username email password) <> mkSignupErrors "" "" "".
Proof.
  intros Hinvalid. split.
  - unfold handleSignup.
    destruct (validateForm username email password) as [isValid newErrors].
    simpl in Hinvalid. by subst.
  - intros Hnone.
    assert (fst (validateForm username email password) = true); [|congruence].
    revert Hnone. clear. unfold validateForm.
    destruct (String.eqb (String_trim username) "");
      destruct (String.eqb (String_trim email) "");
      destruct (email_pattern_test email);
      destruct (String.eqb password "");
      destruct (String_length password <? 6)%nat; simpl; done.
Qed.

Lemma handleSignup_valid username email password view ctx w :
  fst (validateForm username email password) = true ->
  handleSignup username email password view ctx w
  = let userData :=
      user_object (String_trim username) (String_toLowerCase (String_trim email))
                  password in
    let view1 :=
      signup_setErrors (snd (validateForm username email password)) view in
    match saveUserData userData w with
    | (Normal (Success _), w') =>
        (Normal (mkSignupView (signup_errors view1) false
                   (Some ("Success", "Account created successfully!")),
                 setUserData userData ctx), w')
    | (Normal (Failure _), w') =>
        (Normal (mkSignupView (signup_errors view1) false
                   (Some ("Error", "Failed to create account. Please try again.")),
                 ctx), w')
    | (Throw _, w') =>
        (Normal (mkSignupView (signup_errors view1) false
                   (Some ("Error", "An unexpected error occurred.")),
                 ctx), w')
    end.
Proof.
  intros Hvalid. unfold handleSignup.
  destruct (validateForm username email password) as [isValid newErrors].
  simpl in Hvalid. subst. cbv zeta. change (negb true) with false. cbv iota.
  unfold bind at 1, try_catch at 1, bind at 1. simpl snd.
  by destruct (saveUserData _ w) as [[[]|] w'].
Qed.

(** X23. Signup logs the session in only when both writes landed. For a
    valid form, whatever faults are pending, [handleSignup] ends with
    [loading] false and either raises the success alert, with the session
    logged in as the record built from the trimmed username, the trimmed
    lower-cased email and the password, that record stored and the login
    flag set; or raises the failure alert and leaves the session as it
    was. *)
Theorem handleSignup_outcome
    (username email password : string) (view : SignupView) (ctx : AppState)
    (w : World) :
  fst (validateForm username email password) = true ->
  let userData :=
    user_object (String_trim username) (String_toLowerCase (String_trim email))
                password in
  exists view' ctx' w',
    handleSignup username email password view ctx w = (Normal (view', ctx'), w')
    /\ signup_loading view' = false
    /\ ((signup_alert view' = Some ("Success", "Account created successfully!")
         /\ ctx' = setUserData userData ctx
         /\ disk w' !! KEYS.USER = Some (JSON_stringify userData)
         /\ disk w' !! KEYS.IS_LOGGED_IN = Some "true")
        \/ (signup_alert view'
            = Some ("Error", "Failed to create account. Please try again.")
            /\ ctx' = ctx)).
Proof.
  intros Hvalid userData. rewrite handleSignup_valid by done. cbv zeta.
  fold userData. unfold saveUserData, try_catch, bind. rewrite setItem_run.
  destruct (fault w) as [msg|].
  { eexists _, _, _. split; [done|]. split; [done|]. by right. }
  rewrite setItem_run. change (fault (commit _ w)) with (fault (tick w)).
  destruct (fault (tick w)) as [msg|].
  { eexists _, _, _. split; [done|]. split; [done|]. by right. }
  eexists _, _, _. split; [done|]. split; [done|]. left.
  split; [done|]. split; [done|]. simpl.
  split; [by rewrite lookup_insert_ne, lookup_insert_eq|by rewrite lookup_insert_eq].
Qed.

(** X24. An account made on the signup screen logs in on the login
    screen. With no storage fault pending, after [handleSignup] of a valid
    form, [handleLogin] with the same password and any email that trims
    and lower-cases to the same string enters the session with the stored
    record and goes to the Home route; with any other non-empty password
    it shows the invalid-credentials message and leaves the session as it
    was. *)
Theorem signup_screen_then_login_screen
    (username email password email' password' : string)
    (sview : SignupView) (lview : LoginView) (ctx : AppState)
    (routes : list string) (w : World) :
  faults w = [] ->
  fst (validateForm username email password) = true ->
  String_toLowerCase (String_trim email') = String_toLowerCase (String_trim email) ->
  String_trim email' <> "" ->
  password' <> "" ->
  let userData :=
    user_object (String_trim username) (String_toLowerCase (String_trim email))
                password in
  fst ((await signed <- handleSignup username email password sview ctx;
        handleLogin email' password' lview (snd signed) routes) w)
  = Normal (if String.eqb password password'
            then (mkLoginView "" false,
                  setUserData userData (setUserData userData ctx), ["Home"])
            else (mkLoginView "Invalid email or password" false,
                  setUserData userData ctx, routes)).
Proof.
  intros Hq Hvalid Hemail He' Hp' userData.
  erewrite bind_Normal
    by (rewrite handleSignup_valid by done; cbv zeta;
        rewrite saveUserData_quiet by done; reflexivity).
  rewrite handleLogin_run by done. simpl.
  rewrite read_or_quiet, parsed_insert_ne by done. rewrite parsed_insert_eq. simpl.
  rewrite (credentials_ok_spec (String_toLowerCase (String_trim email)) password)
    by done.
  rewrite Hemail, String.eqb_refl. simpl.
  by destruct (String.eqb password password').
Qed.

End Storage.

(** ** The concrete codec is lossless *)

Module JSONFacts.
Import JSON.

Lemma parse_chars_escape_char c r :
  parse_chars (escape_char c r) = cons_char (Some c) (parse_chars r).
Proof. destruct c as [[] [] [] [] [] [] [] []]; reflexivity. Qed.

Lemma parse_chars_escape s k :
  parse_chars (escape s (String dquote k)) = Some (s, k).
Proof.
  induction s as [|c s IH]; [reflexivity|].
  simpl escape. rewrite parse_chars_escape_char, IH. reflexivity.
Qed.

Lemma scan_uint_follow k : follow_ok k -> scan_uint k = (Decimal.Nil, k).
Proof. destruct k as [|c k]; [reflexivity|]. simpl. by intros ->. Qed.

Lemma scan_print_uint d k :
  follow_ok k -> scan_uint (print_uint d k) = (d, k).
Proof.
  intros Hk. induction d; simpl; rewrite ?IHd; try reflexivity.
  by apply scan_uint_follow.
Qed.

Lemma canonical_to_uint p : canonical (Pos.to_uint p) = true.
Proof.
  unfold canonical. apply Decimal.internal_uint_dec_lb.
  rewrite <- (Unsigned.to_of (Pos.to_uint p)), Unsigned.of_to. reflexivity.
Qed.

Lemma parse_number_print n k :
  follow_ok k -> parse_number (print_Z n k) = Some (VNum n, k).
Proof.
  intros Hk. unfold print_Z.
  pose proof (DecimalZ.of_to n) as Hn.
  destruct n as [|p|p]; simpl Z.to_int in *.
  - simpl. by rewrite scan_uint_follow.
  - pose proof (canonical_to_uint p) as Hc.
    pose proof (Unsigned.to_uint_nonnil p) as Hnil.
    pose proof (scan_print_uint (Pos.to_uint p) k Hk) as Hscan.
    destruct (Pos.to_uint p) as [|d|d|d|d|d|d|d|d|d|d]; [done|..];
      simpl print_uint in *; unfold parse_number;
      rewrite Hscan, Hc, Hn; reflexivity.
  - unfold parse_number. simpl Ascii.eqb. cbv iota.
    by rewrite scan_print_uint, canonical_to_uint, Hn.
Qed.

Lemma print_uint_head d k :
  d <> Decimal.Nil -> exists c s, print_uint d k = String c s /\ numeric c = true.
Proof. destruct d; [done|..]; intros _; by eexists _, _. Qed.

Lemma print_Z_head n k : exists c s, print_Z n k = String c s /\ numeric c = true.
Proof.
  unfold print_Z. destruct n as [|p|p]; simpl Z.to_int.
  - by eexists _, _.
  - apply print_uint_head, Unsigned.to_uint_nonnil.
  - by eexists _, _.
Qed.

Lemma parse_value_numeric fuel c s :
  numeric c = true ->
  parse_value (S fuel) (String c s) = parse_number (String c s).
Proof. destruct c as [[] [] [] [] [] [] [] []]; (discriminate || reflexivity). Qed.

Lemma print_head v k : exists c s, print v k = String c s /\ starts_value c = true.
Proof.
  destruct v as [|[]|n|str|[|x rest]|[|[key x] rest]]; try by eexists _, _.
  destruct (print_Z_head n k) as (c & s & Hs & Hc).
  exists c, s. split; [done|]. unfold starts_value. by rewrite Hc.
Qed.

Lemma starts_value_facts c :
  starts_value c = true ->
  is_ws c = false /\ Ascii.eqb c "]" = false /\ Ascii.eqb c "}" = false.
Proof. destruct c as [[] [] [] [] [] [] [] []]; (discriminate || done). Qed.

Lemma print_elems_follow l k : follow_ok (print_elems l k).
Proof. by destruct l. Qed.

Lemma print_members_follow l k : follow_ok (print_members l k).
Proof. by destruct l as [|[] ?]. Qed.

Lemma parse_value_arr fuel s :
  parse_value (S fuel) (String "[" s)
  = match skip_ws s with
    | String c' rest' =>
        if Ascii.eqb c' "]" then Some (VArr [], rest')
        else
          match parse_value fuel s with
          | Some (x, rest1) =>
              match parse_elems fuel rest1 with
              | Some (xs, rest2) => Some (VArr (x :: xs), rest2)
              | None => None
              end
          | None => None
          end
    | EmptyString => None
    end.
Proof. reflexivity. Qed.

Lemma parse_value_obj fuel s :
  parse_value (S fuel) (String "{" s)
  = match skip_ws s with
    | String c' rest' =>
        if Ascii.eqb c' "}" then Some (VObj [], rest')
        else
          match parse_key s with
          | Some (key, rest1) =>
              match parse_value fuel rest1 with
              | Some (x, rest2) =>
                  match parse_members fuel rest2 with
                  | Some (xs, rest3) => Some (VObj ((key, x) :: xs), rest3)
                  | None => None
                  end
              | None => None
              end
          | None => None
          end
    | EmptyString => None
    end.
Proof. reflexivity. Qed.

Lemma parse_elems_comma fuel s :
  parse_elems (S fuel) (String "," s)
  = match parse_value fuel s with
    | Some (x, rest1) =>
        match parse_elems fuel rest1 with
        | Some (xs, rest2) => Some (x :: xs, rest2)
        | None => None
        end
    | None => None
    end.
Proof. reflexivity. Qed.

Lemma parse_members_comma fuel s :
  parse_members (S fuel) (String "," s)
  = match parse_key s with
    | Some (key, rest1) =>
        match parse_value fuel rest1 with
        | Some (x, rest2) =>
            match parse_members fuel rest2 with
            | Some (xs, rest3) => Some ((key, x) :: xs, rest3)
            | None => None
            end
        | None => None
        end
    | None => None
    end.
Proof. reflexivity. Qed.

Lemma parse_key_print key s :
  parse_key (print_string key (String ":" s)) = Some (key, s).
Proof.
  unfold parse_key, print_string.
  change (skip_ws (String dquote ?r)) with (String dquote r).
  change (Ascii.eqb dquote dquote) with true. cbv iota.
  by rewrite parse_chars_escape.
Qed.

Lemma parse_value_string fuel str k :
  parse_value (S fuel) (print_string str k) = Some (VStr str, k).
Proof.
  unfold print_string.
  change (parse_value (S fuel) (String dquote ?r))
    with (match parse_chars r with
          | Some (str, rest') => Some (VStr str, rest')
          | None => None
          end).
  by rewrite parse_chars_escape.
Qed.

Lemma parse_print_elems l :
  Forall reads_back l ->
  forall fuel k,
    (size_items l <= fuel)%nat ->
    parse_elems fuel (print_elems l k) = Some (l, k).
Proof.
  induction 1 as [|y l Hy _ IH]; intros fuel k Hfuel.
  - destruct fuel as [|fuel]; [simpl in Hfuel; lia|]. reflexivity.
  - destruct fuel as [|fuel]; [simpl in Hfuel; lia|].
    change (size_items (y :: l)) with (S (size y + size_items l)) in Hfuel.
    change (print_elems (y :: l) k) with (String "," (print y (print_elems l k))).
    rewrite parse_elems_comma.
    rewrite Hy; [|lia|apply print_elems_follow].
    rewrite IH by lia. reflexivity.
Qed.

Lemma parse_print_members l :
  Forall (fun kv => reads_back (snd kv)) l ->
  forall fuel k,
    (size_fields l <= fuel)%nat ->
    parse_members fuel (print_members l k) = Some (l, k).
Proof.
  induction 1 as [|[key y] l Hy _ IH]; intros fuel k Hfuel.
  - destruct fuel as [|fuel]; [simpl in Hfuel; lia|]. reflexivity.
  - destruct fuel as [|fuel]; [simpl in Hfuel; lia|].
    change (size_fields ((key, y) :: l)) with (S (size y + size_fields l)) in Hfuel.
    change (print_members ((key, y) :: l) k)
      with (String "," (print_string key (String ":" (print y (print_members l k))))).
    rewrite parse_members_comma, parse_key_print.
    simpl in Hy. rewrite Hy; [|lia|apply print_members_follow].
    rewrite IH by lia. reflexivity.
Qed.

Lemma parse_print v : reads_back v.
Proof.
  induction v as [|b|n|str|items IH|fields IH] using jsval_nested_ind;
    intros fuel k Hfuel Hk;
    (destruct fuel as [|fuel]; [simpl in Hfuel; lia|]).
  - reflexivity.
  - by destruct b.
  - change (print (VNum n) k) with (print_Z n k).
    destruct (print_Z_head n k) as (c & s & Hs & Hc).
    rewrite Hs, parse_value_numeric, <- Hs by done.
    by apply parse_number_print.
  - apply parse_value_string.
  - destruct items as [|x rest]; [reflexivity|].
    apply Forall_cons in IH as [Hx Hrest].
    change (size (VArr (x :: rest))) with (S (S (size x + size_items rest))) in Hfuel.
    change (print (VArr (x :: rest)) k)
      with (String "[" (print x (print_elems rest k))).
    rewrite parse_value_arr.
    destruct (print_head x (print_elems rest k)) as (c & s & Hs & Hc).
    apply starts_value_facts in Hc as (Hws & Hclose & _).
    rewrite Hs at 1. simpl skip_ws. rewrite Hws, Hclose.
    rewrite Hx; [|lia|apply print_elems_follow].
    rewrite (parse_print_elems rest Hrest) by lia. reflexivity.
  - destruct fields as [|[key x] rest]; [reflexivity|].
    apply Forall_cons in IH as [Hx Hrest]. simpl in Hx.
    change (size (VObj ((key, x) :: rest)))
      with (S (S (size x + size_fields rest))) in Hfuel.
    change (print (VObj ((key, x) :: rest)) k)
      with (String "{" (print_string key (String ":" (print x (print_members rest k))))).
    rewrite parse_value_obj.
    change (skip_ws (print_string key ?r)) with (print_string key r).
    unfold print_string at 1.
    change (Ascii.eqb dquote "}") with false. cbv iota.
    rewrite parse_key_print.
    rewrite Hx; [|lia|apply print_members_follow].
    rewrite (parse_print_members rest Hrest) by lia. reflexivity.
Qed.

(** *** The text is long enough to pay for the fuel *)

Lemma length_escape_char c r :
  (String.length r <= String.length (escape_char c r))%nat.
Proof.
  unfold escape_char.
  repeat match goal with |- context [if ?b then _ else _] => destruct b end;
    simpl; lia.
Qed.

Lemma length_escape s k : (String.length k <= String.length (escape s k))%nat.
Proof.
  induction s as [|c s IH]; simpl; [lia|].
  pose proof (length_escape_char c (escape s k)). lia.
Qed.

Lemma length_print_string s k :
  (String.length k + 2 <= String.length (print_string s k))%nat.
Proof.
  unfold print_string. simpl.
  pose proof (length_escape s (String dquote k)). simpl in *. lia.
Qed.

Lemma length_print_uint d k : (String.length k <= String.length (print_uint d k))%nat.
Proof. induction d; simpl; lia. Qed.

Lemma length_print_Z n k : (String.length k <= String.length (print_Z n k))%nat.
Proof.
  unfold print_Z. destruct (Z.to_int n) as [d|d]; simpl;
    pose proof (length_print_uint d k); lia.
Qed.

Lemma pays_elems l :
  Forall pays l ->
  forall k, (size_items l + 2 * String.length k
             <= 2 * String.length (print_elems l k))%nat.
Proof.
  induction 1 as [|y l Hy _ IH]; intros k; [simpl; lia|].
  change (size_items (y :: l)) with (S (size y + size_items l)).
  change (print_elems (y :: l) k) with (String "," (print y (print_elems l k))).
  specialize (Hy (print_elems l k)). specialize (IH k).
  change (String.length (String ?c ?r)) with (S (String.length r)). lia.
Qed.

Lemma pays_members l :
  Forall (fun kv => pays (snd kv)) l ->
  forall k, (size_fields l + 2 * String.length k
             <= 2 * String.length (print_members l k))%nat.
Proof.
  induction 1 as [|[key y] l Hy _ IH]; intros k; [simpl; lia|].
  change (size_fields ((key, y) :: l)) with (S (size y + size_fields l)).
  change (print_members ((key, y) :: l) k)
    with (String "," (print_string key (String ":" (print y (print_members l k))))).
  specialize (Hy (print_members l k)). specialize (IH k). simpl in Hy.
  pose proof (length_print_string key (String ":" (print y (print_members l k)))) as Hkey.
  change (String.length (String ?c ?r)) with (S (String.length r)) in *. lia.
Qed.

Lemma print_pays v : pays v.
Proof.
  induction v as [|b|n|str|items IH|fields IH] using jsval_nested_ind; intros k.
  - simpl; lia.
  - destruct b; simpl; lia.
  - pose proof (length_print_Z n k). simpl in *. lia.
  - pose proof (length_print_string str k). simpl in *. lia.
  - destruct items as [|x rest]; [simpl; lia|].
    apply Forall_cons in IH as [Hx Hrest].
    change (size (VArr (x :: rest))) with (S (S (size x + size_items rest))).
    change (print (VArr (x :: rest)) k)
      with (String "[" (print x (print_elems rest k))).
    specialize (Hx (print_elems rest k)).
    pose proof (pays_elems rest Hrest k).
    change (String.length (String ?c ?r)) with (S (String.length r)). lia.
  - destruct fields as [|[key x] rest]; [simpl; lia|].
    apply Forall_cons in IH as [Hx Hrest]. simpl in Hx.
    change (size (VObj ((key, x) :: rest)))
      with (S (S (size x + size_fields rest))).
    change (print (VObj ((key, x) :: rest)) k)
      with (String "{" (print_string key (String ":" (print x (print_members rest k))))).
    specialize (Hx (print_members rest k)).
    pose proof (pays_members rest Hrest k).
    pose proof (length_print_string key (String ":" (print x (print_members rest k)))) as Hkey.
    change (String.length (String ?c ?r)) with (S (String.length r)) in *. lia.
Qed.

Lemma parse_stringify v : parse (stringify v) = Some v.
Proof.
  unfold parse, stringify.
  rewrite parse_print; [reflexivity| |exact I].
  pose proof (print_pays v EmptyString). simpl in *. lia.
Qed.

Lemma parse_empty : parse "" = None.
Proof. reflexivity. Qed.

Lemma parse_true : parse "true" = Some (VBool true).
Proof. reflexivity. Qed.

End JSONFacts.

(** ** The static content provider *)

(** C8. [fetchPosts] resolves, in every world and without touching it,
    to a success carrying the one constant list [samplePosts]: twenty
    records of shape [{ id, userId, title, body }], with ids 1 to 20. *)
Theorem fetchPosts_constant_twenty (w w' : World) :
  fetchPosts w = (Normal (Success (VArr samplePosts)), w)
  /\ fst (fetchPosts w) = fst (fetchPosts w')
  /\ length samplePosts = 20%nat
  /\ forallb post_shape samplePosts = true
  /\ map (field "id") samplePosts = map (fun n => Some (VNum n)) (seqZ 1 20).
Proof. repeat split. Qed.

(** ** The model run on the concrete codec *)

(** Login on a device that holds alice's account: her credentials
    succeed, a wrong password is refused. *)
Lemma validateUser_iff_exact_match_witness :
  fst (validateUser JSON.parse "alice@example.com" "s3cret" signed_up)
  = Normal (Success alice)
  /\ fst (validateUser JSON.parse "alice@example.com" "guess" signed_up)
     = Normal (Failure "Invalid email or password").
Proof.
  split.
  - destruct (validateUser_iff_exact_match JSON.parse "alice@example.com" "s3cret" signed_up)
      as (r & Hrun & Hiff & _).
    rewrite Hrun. simpl. f_equal. apply Hiff. repeat split.
  - destruct (validateUser_iff_exact_match JSON.parse "alice@example.com" "guess" signed_up)
      as (r & Hrun & Hiff & Hfail).
    rewrite Hrun. simpl. f_equal. apply Hfail.
    destruct r as [u|]; [|reflexivity].
    destruct (proj1 (Hiff u) eq_refl) as (_ & Hu & _ & Hpw).
    vm_compute in Hu. injection Hu as <-. discriminate Hpw.
Defined.

(** Favorites on the concrete codec: adding a held post changes nothing,
    adding to an empty disk stores the one post, a faulty run keeps the
    invariant, and adding a post twice stores it once. *)
Lemma favorites_at_most_one_entry_per_id_witness :
  addToFavorites JSON.stringify JSON.parse first_post two_favorites
  = (Normal (Success tt), two_favorites)
  /\ addToFavorites JSON.stringify JSON.parse first_post fresh_install
     = (Normal (Success tt),
        mkWorld (<[KEYS.FAVORITES := JSON.stringify (VArr [first_post])]> ∅) [])
  /\ (exists w',
        run_ops JSON.stringify JSON.parse
          [Add first_post; Remove (VNum 2); Add second_post; Add first_post]
          (mkWorld (disk two_favorites) [None; Some "disk full"; Some "I/O error"])
        = (Normal tt, w')
        /\ favorites_inv JSON.parse (disk w'))
  /\ (exists l' w',
        run_ops JSON.stringify JSON.parse [Add first_post; Add first_post] fresh_install
        = (Normal tt, w')
        /\ stored_favorites JSON.parse (disk w') = VArr l'
        /\ length (List.filter (has_id (field "id" first_post)) l') = 1%nat).
Proof.
  destruct (favorites_at_most_one_entry_per_id
              JSON.stringify JSON.parse JSONFacts.parse_stringify JSONFacts.parse_empty)
    as (Hadd & Hruns & Htwice).
  assert (Hstored : stored_favorites JSON.parse (disk two_favorites)
                    = VArr [first_post; second_post]) by (vm_compute; reflexivity).
  assert (Hposts : Forall (fun item => is_post item = true) [first_post; second_post])
    by (repeat constructor).
  split; [|split; [|split]].
  - apply (Hadd first_post [first_post; second_post] two_favorites);
      [reflexivity|exact Hstored|exact Hposts|reflexivity|].
    exists first_post. split; [left|reflexivity].
  - apply (Hadd first_post [] fresh_install);
      [reflexivity|reflexivity|constructor|reflexivity|].
    intros item Hin. inversion Hin.
  - apply Hruns.
    + repeat constructor.
    + exists [first_post; second_post]. split; [exact Hstored|]. split; [exact Hposts|].
      unfold one_per_id. simpl. apply NoDup_cons. split; [|apply NoDup_singleton].
      intros Hin. apply list_elem_of_singleton in Hin. discriminate Hin.
  - apply Htwice; try reflexivity.
    exists []. split; [reflexivity|]. split; constructor.
Defined.

(** Removing post 1 from two stored favorites leaves post 2, and doing it
    again changes nothing more. *)
Lemma removeFromFavorites_removes_exactly_witness :
  exists w',
    removeFromFavorites JSON.stringify JSON.parse (VNum 1) two_favorites
    = (Normal (Success tt), w')
    /\ stored_favorites JSON.parse (disk w') = VArr [second_post]
    /\ (await _ <- removeFromFavorites JSON.stringify JSON.parse (VNum 1);
        removeFromFavorites JSON.stringify JSON.parse (VNum 1)) two_favorites
       = removeFromFavorites JSON.stringify JSON.parse (VNum 1) two_favorites.
Proof.
  destruct (removeFromFavorites_removes_exactly
              JSON.stringify JSON.parse JSONFacts.parse_stringify JSONFacts.parse_empty
              (VNum 1) [first_post; second_post] two_favorites)
    as (w' & Hrun & Hstored & _ & _ & Hidem & _).
  - reflexivity.
  - vm_compute. reflexivity.
  - repeat constructor; discriminate.
  - exists w'. split; [exact Hrun|]. split; [exact Hstored|exact Hidem].
Defined.

(** A disk whose strings are not JSON, and that holds no user record,
    reads as the defaults. *)
Lemma reads_fall_back_to_defaults_witness :
  getSettings JSON.parse corrupted = (Normal (settings_object false true), tick corrupted)
  /\ getFavorites JSON.parse corrupted = (Normal (VArr []), tick corrupted)
  /\ getUserData JSON.parse corrupted = (Normal VNull, tick corrupted)
  /\ checkLoginStatus corrupted = (Normal false, tick corrupted).
Proof.
  destruct (reads_fall_back_to_defaults JSON.parse JSONFacts.parse_true corrupted)
    as (Hsettings & Hfavorites & Huser & Hflag).
  split; [|split; [|split]].
  - apply Hsettings. right. exists "{oops". split; reflexivity.
  - apply Hfavorites. right. exists "[1,2". split; reflexivity.
  - apply Huser. left. reflexivity.
  - apply Hflag. right. exists "maybe". split; reflexivity.
Defined.

(** Switching dark mode on after a fresh install stores
    [{ darkMode: true, notifications: true }]. *)
Lemma toggleDarkMode_persists_negation_witness :
  exists w',
    toggleDarkMode JSON.stringify initialState fresh_install
    = (Normal (setDarkMode true initialState), w')
    /\ parsed JSON.parse KEYS.SETTINGS (disk w') = Some (settings_object true true).
Proof.
  destruct (toggleDarkMode_persists_negation
              JSON.stringify JSON.parse JSONFacts.parse_stringify JSONFacts.parse_empty
              initialState fresh_install eq_refl)
    as (w' & Hrun & _ & _ & _ & Hon).
  exists w'. split; [exact Hrun|]. apply Hon. reflexivity.
Defined.

(** Signup on a fresh install logs the user in; with the second write
    rejected it fails and leaves the record behind. *)
Lemma saveUserData_success_sets_login_flag_witness :
  (let w' := snd (saveUserData JSON.stringify alice fresh_install) in
   disk w' !! KEYS.USER = Some (JSON.stringify alice)
   /\ disk w' !! KEYS.IS_LOGGED_IN = Some "true"
   /\ fst (checkLoginStatus w') = Normal true)
  /\ (exists w',
        saveUserData JSON.stringify alice (mkWorld ∅ [None; Some "disk full"])
        = (Normal (Failure "disk full"), w')
        /\ disk w' = <[KEYS.USER := JSON.stringify alice]> ∅).
Proof.
  split.
  - intros w'.
    destruct (saveUserData_success_sets_login_flag JSON.stringify alice fresh_install)
      as (Hsuccess & _).
    destruct (Hsuccess w' eq_refl) as (Huser & Hflag & Hcheck).
    split; [exact Huser|]. split; [exact Hflag|]. apply Hcheck. reflexivity.
  - destruct (saveUserData_success_sets_login_flag JSON.stringify alice
                (mkWorld ∅ [None; Some "disk full"]))
      as (_ & Hsplit).
    apply (Hsplit "disk full"); reflexivity.
Defined.

(** Post 2 is found among the two stored favorites, and is reported
    absent when the read is rejected. *)
Lemma isInFavorites_iff_stored_witness :
  isInFavorites JSON.parse (VNum 2) two_favorites = (Normal true, tick two_favorites)
  /\ isInFavorites JSON.parse (VNum 2) (mkWorld (disk two_favorites) [Some "I/O error"])
     = (Normal false, mkWorld (disk two_favorites) []).
Proof.
  split.
  - destruct (isInFavorites_iff_stored JSON.parse (VNum 2) two_favorites) as (Hread & _).
    destruct (Hread [first_post; second_post]) as (b & Hrun & Hiff & _).
    + reflexivity.
    + vm_compute. reflexivity.
    + repeat constructor; discriminate.
    + rewrite Hrun. do 2 f_equal. apply Hiff. exists second_post.
      split; [|reflexivity]. right. left.
  - destruct (isInFavorites_iff_stored JSON.parse (VNum 2)
                (mkWorld (disk two_favorites) [Some "I/O error"])) as (_ & Hfault).
    apply (Hfault "I/O error"). reflexivity.
Defined.

(** The claim that logout deletes the stored user record fails on a
    device that holds an account: after the settings screen's logout, and
    after [logoutUser], [getUserData] still resolves to the record. *)
Lemma logout_leaves_user_record_readable :
  fst (getUserData JSON.parse signed_up) = Normal alice
  /\ fst (getUserData JSON.parse
            (snd (handleLogout (setUserData alice initialState) ["Settings"] signed_up)))
     = Normal alice
  /\ fst (getUserData JSON.parse
            (snd (handleLogout (setUserData alice initialState) ["Settings"] signed_up)))
     <> Normal VNull
  /\ fst (getUserData JSON.parse (snd (logoutUser signed_up))) <> Normal VNull.
Proof.
  split; [vm_compute; reflexivity|].
  split; [vm_compute; reflexivity|].
  split; vm_compute; discriminate.
Qed.

(** ** The further properties run on the concrete codec *)

(** Alice signs up on a fresh install: her credentials log in, a guess
    does not. *)
Lemma signup_then_login_witness :
  fst ((await _ <- saveUserData JSON.stringify alice;
        validateUser JSON.parse "alice@example.com" "s3cret") fresh_install)
  = Normal (Success alice)
  /\ fst ((await _ <- saveUserData JSON.stringify alice;
           validateUser JSON.parse "alice@example.com" "guess") fresh_install)
     = Normal (Failure "Invalid email or password").
Proof.
  split.
  - exact (signup_then_login JSON.stringify JSON.parse
             JSONFacts.parse_stringify JSONFacts.parse_empty
             alice "alice@example.com" "s3cret" fresh_install
             eq_refl eq_refl eq_refl "alice@example.com" "s3cret").
  - exact (signup_then_login JSON.stringify JSON.parse
             JSONFacts.parse_stringify JSONFacts.parse_empty
             alice "alice@example.com" "s3cret" fresh_install
             eq_refl eq_refl eq_refl "alice@example.com" "guess").
Defined.

(** Bob signs up on the device that held alice's account. *)
Lemma signup_overwrites_previous_account_witness :
  (await _ <- saveUserData JSON.stringify alice; saveUserData JSON.stringify bob)
    fresh_install
  = saveUserData JSON.stringify bob fresh_install
  /\ fst ((await _ <- saveUserData JSON.stringify alice;
           await _ <- saveUserData JSON.stringify bob;
           getUserData JSON.parse) fresh_install) = Normal bob.
Proof.
  exact (signup_overwrites_previous_account JSON.stringify JSON.parse
           JSONFacts.parse_stringify JSONFacts.parse_empty
           alice bob fresh_install eq_refl).
Defined.

(** A settings record, saved under each key and read back. *)
Lemma savers_are_read_back_witness :
  fst ((await _ <- saveSettings JSON.stringify (settings_object true false);
        getSettings JSON.parse) signed_up)
  = Normal (settings_object true false)
  /\ fst ((await _ <- saveFavorites JSON.stringify (settings_object true false);
           getFavorites JSON.parse) signed_up)
     = Normal (settings_object true false)
  /\ fst ((await _ <- saveUserData JSON.stringify (settings_object true false);
           getUserData JSON.parse) signed_up)
     = Normal (settings_object true false).
Proof.
  exact (savers_are_read_back JSON.stringify JSON.parse
           JSONFacts.parse_stringify JSONFacts.parse_empty
           (settings_object true false) signed_up eq_refl).
Defined.

(** Clearing the device that holds alice's account, and a rejected
    clear. *)
Lemma clearAllData_resets_device_witness :
  (exists w',
      clearAllData signed_up = (Normal (Success tt), w')
      /\ disk w' !! KEYS.USER = None
      /\ fst (getUserData JSON.parse w') = Normal VNull
      /\ fst (validateUser JSON.parse "alice@example.com" "s3cret" w')
         = Normal (Failure "Invalid email or password"))
  /\ clearAllData (mkWorld (disk signed_up) [Some "I/O error"])
     = (Normal (Failure "I/O error"), mkWorld (disk signed_up) []).
Proof.
  split.
  - destruct (clearAllData_resets_device JSON.parse signed_up) as (_ & Hclear).
    destruct (Hclear eq_refl)
      as (w' & Hrun & Hgone & _ & _ & _ & Huser & _ & Hlogin).
    exists w'. split; [exact Hrun|]. split; [apply Hgone; left|].
    split; [exact Huser|apply Hlogin].
  - destruct (clearAllData_resets_device JSON.parse
                (mkWorld (disk signed_up) [Some "I/O error"])) as (Hfail & _).
    exact (Hfail "I/O error" eq_refl).
Defined.

(** [logoutUser] on the device that holds alice's account: the flag is
    cleared and alice can still log in. *)
Lemma logoutUser_clears_flag_only_witness :
  exists w',
    logoutUser signed_up = (Normal (Success tt), w')
    /\ fst (checkLoginStatus w') = Normal false
    /\ fst (validateUser JSON.parse "alice@example.com" "s3cret" w')
       = Normal (Success alice).
Proof.
  destruct (logoutUser_clears_flag_only JSON.parse signed_up) as (_ & Hlogout).
  destruct (Hlogout eq_refl) as (w' & Hrun & _ & Hflag & Hlogin).
  exists w'. split; [exact Hrun|]. split; [exact Hflag|].
  rewrite Hlogin. vm_compute. reflexivity.
Defined.

Lemma two_favorites_stored :
  stored_favorites JSON.parse (disk two_favorites) = VArr [first_post; second_post].
Proof. vm_compute. reflexivity. Qed.

Lemma two_favorites_posts :
  Forall (fun item => is_post item = true) [first_post; second_post].
Proof. repeat constructor. Qed.

Lemma two_favorites_not_null : Forall not_null [first_post; second_post].
Proof. repeat constructor; discriminate. Qed.

(** The third post is found after it is added, and not after it is
    removed. *)
Lemma isInFavorites_follows_updates_witness :
  fst ((await _ <- addToFavorites JSON.stringify JSON.parse third_post;
        isInFavorites JSON.parse (VNum 3)) two_favorites) = Normal true
  /\ fst ((await _ <- removeFromFavorites JSON.stringify JSON.parse (VNum 3);
           isInFavorites JSON.parse (VNum 3)) two_favorites) = Normal false.
Proof.
  exact (isInFavorites_follows_updates JSON.stringify JSON.parse
           JSONFacts.parse_stringify JSONFacts.parse_empty
           third_post 3 [first_post; second_post] two_favorites
           eq_refl two_favorites_stored two_favorites_posts eq_refl).
Defined.

(** Adding the third post to the two favorites and removing it again. *)
Lemma add_then_remove_restores_witness :
  exists w',
    (await _ <- addToFavorites JSON.stringify JSON.parse third_post;
     removeFromFavorites JSON.stringify JSON.parse (VNum 3)) two_favorites
    = (Normal (Success tt), w')
    /\ stored_favorites JSON.parse (disk w') = VArr [first_post; second_post].
Proof.
  destruct (add_then_remove_restores JSON.stringify JSON.parse
              JSONFacts.parse_stringify JSONFacts.parse_empty
              third_post 3 [first_post; second_post] two_favorites
              eq_refl two_favorites_stored two_favorites_posts eq_refl)
    as (w' & Hrun & _ & Hfresh).
  exists w'. split; [exact Hrun|]. apply Hfresh.
  intros item Hin.
  apply elem_of_cons in Hin as [->|Hin]; [discriminate|].
  apply elem_of_cons in Hin as [->|Hin]; [discriminate|].
  inversion Hin.
Defined.

(** Removing posts 1 and 2 in either order. *)
Lemma removals_commute_witness :
  (await _ <- removeFromFavorites JSON.stringify JSON.parse (VNum 1);
   removeFromFavorites JSON.stringify JSON.parse (VNum 2)) two_favorites
  = (await _ <- removeFromFavorites JSON.stringify JSON.parse (VNum 2);
     removeFromFavorites JSON.stringify JSON.parse (VNum 1)) two_favorites.
Proof.
  exact (removals_commute JSON.stringify JSON.parse
           JSONFacts.parse_stringify JSONFacts.parse_empty
           (VNum 1) (VNum 2) [first_post; second_post] two_favorites
           eq_refl two_favorites_stored two_favorites_not_null).
Defined.

(** Favorites that are the number 5. *)
Lemma favorites_not_a_list_witness :
  (exists msg,
      addToFavorites JSON.stringify JSON.parse first_post favorites_a_number
      = (Normal (Failure msg), tick favorites_a_number))
  /\ (exists msg,
        removeFromFavorites JSON.stringify JSON.parse (VNum 1) favorites_a_number
        = (Normal (Failure msg), tick favorites_a_number))
  /\ isInFavorites JSON.parse (VNum 1) favorites_a_number
     = (Normal false, tick favorites_a_number).
Proof.
  apply (favorites_not_a_list JSON.stringify JSON.parse (VNum 5)).
  - reflexivity.
  - vm_compute. reflexivity.
  - intros l. discriminate.
Defined.

(** The favorites screen after removing post 1 shows post 2. *)
Lemma handleRemove_shows_stored_witness :
  exists w',
    handleRemove JSON.stringify JSON.parse (VNum 1)
      (mkFavoritesView (VArr [first_post; second_post]) false true) two_favorites
    = (Normal (mkFavoritesView (stored_favorites JSON.parse (disk w')) false false), w')
    /\ stored_favorites JSON.parse (disk w') = VArr [second_post].
Proof.
  destruct (handleRemove_shows_stored JSON.stringify JSON.parse (VNum 1)
              (mkFavoritesView (VArr [first_post; second_post]) false true)
              two_favorites eq_refl) as (w' & Hrun & _).
  exists w'. split; [exact Hrun|].
  apply (f_equal snd) in Hrun. simpl in Hrun. rewrite <- Hrun.
  vm_compute. reflexivity.
Defined.

(** Dark mode pressed twice and notifications once, from the initial
    state. *)
Lemma settings_follow_the_switches_witness :
  exists st' w',
    run_toggles JSON.stringify [DarkMode; Notifications; DarkMode]
      initialState fresh_install = (Normal st', w')
    /\ darkMode st' = false
    /\ notificationsEnabled st' = false
    /\ parsed JSON.parse KEYS.SETTINGS (disk w') = Some (settings_object false false).
Proof.
  destruct (settings_follow_the_switches JSON.stringify JSON.parse
              JSONFacts.parse_stringify JSONFacts.parse_empty
              [DarkMode; Notifications; DarkMode] initialState fresh_install eq_refl)
    as (st' & w' & Hrun & Hd & Hn & _ & _ & Hset & _).
  exists st', w'. split; [exact Hrun|]. split; [exact Hd|]. split; [exact Hn|].
  rewrite Hset by discriminate. by rewrite Hd, Hn.
Defined.

(** Launch on a fresh install. *)
Lemma loadInitialData_fresh_install_witness :
  loadInitialData JSON.parse (provider_state initialState) fresh_install
  = (Normal (mkProviderState (VBool false) true false VNull false), fresh_install).
Proof.
  exact (loadInitialData_fresh_install JSON.parse (provider_state initialState)
           fresh_install eq_refl eq_refl).
Defined.

(** Launch on the device whose settings are [null]: the set login flag
    is not picked up. *)
Lemma loadInitialData_null_settings_witness :
  loadInitialData JSON.parse (provider_state initialState) null_settings
  = (Normal (mkProviderState (VBool false) true false VNull false), null_settings)
  /\ fst (checkLoginStatus null_settings) = Normal true.
Proof.
  split; [|reflexivity].
  apply (loadInitialData_null_settings JSON.parse (provider_state initialState)
           null_settings); [reflexivity|vm_compute; reflexivity].
Defined.

(** Alice signs up and switches dark mode on; the next launch finds her
    logged in with dark mode on. *)
Lemma relaunch_restores_session_witness :
  exists st' w',
    (await _ <- saveUserData JSON.stringify alice;
     run_toggles JSON.stringify [DarkMode] (setUserData alice initialState))
      fresh_install = (Normal st', w')
    /\ fst (loadInitialData JSON.parse (provider_state initialState) w')
       = Normal (mkProviderState (VBool true) true true alice false).
Proof.
  destruct (relaunch_restores_session JSON.stringify JSON.parse
              JSONFacts.parse_stringify JSONFacts.parse_empty
              alice [DarkMode] initialState fresh_install eq_refl)
    as (st' & w' & Hrun & Hload); [discriminate|].
  exists st', w'. split; [exact Hrun|].
  rewrite Hload. injection Hrun as <- _. reflexivity.
Defined.

(** Alice signs up and logs out from the settings screen: the next launch
    finds her logged in; after [logoutUser] it does not. *)
Lemma logout_is_not_persisted_witness :
  (exists st' routes' w' loaded,
      (await _ <- saveUserData JSON.stringify alice;
       handleLogout (setUserData alice initialState) ["Settings"]) fresh_install
      = (Normal (st', routes'), w')
      /\ isLoggedIn st' = false
      /\ fst (loadInitialData JSON.parse (provider_state initialState) w')
         = Normal loaded
      /\ p_isLoggedIn loaded = true
      /\ p_user loaded = alice)
  /\ (exists r w' loaded,
        (await _ <- saveUserData JSON.stringify alice; logoutUser) fresh_install
        = (Normal r, w')
        /\ fst (loadInitialData JSON.parse (provider_state initialState) w')
           = Normal loaded
        /\ p_isLoggedIn loaded = false).
Proof.
  apply (logout_is_not_persisted JSON.stringify JSON.parse
           JSONFacts.parse_stringify JSONFacts.parse_empty);
    [reflexivity|discriminate].
Defined.

(** A login with a blank email never reaches the disk. *)
Lemma handleLogin_blank_field_witness :
  handleLogin JSON.parse sample_trim sample_toLowerCase "   " "s3cret"
    (mkLoginView "" false) initialState ["Login"] signed_up
  = (Normal (mkLoginView "Please enter both email and password" false,
             initialState, ["Login"]), signed_up).
Proof.
  apply (handleLogin_blank_field JSON.parse sample_trim sample_toLowerCase).
  left. reflexivity.
Defined.

(** Alice logs in with her email typed in capitals and padded. *)
Lemma handleLogin_outcome_witness :
  exists view' ctx' routes',
    handleLogin JSON.parse sample_trim sample_toLowerCase " Alice@Example.COM " "s3cret"
      (mkLoginView "" false) initialState ["Login"] signed_up
    = (Normal (view', ctx', routes'), tick signed_up)
    /\ login_loading view' = false
    /\ ctx' = setUserData alice initialState
    /\ routes' = ["Home"].
Proof.
  destruct (handleLogin_outcome JSON.parse sample_trim sample_toLowerCase
              " Alice@Example.COM " "s3cret" (mkLoginView "" false) initialState
              ["Login"] signed_up)
    as (view' & ctx' & routes' & Hrun & Hloading & Hcases);
    [vm_compute; discriminate|discriminate|].
  exists view', ctx', routes'. split; [exact Hrun|]. split; [exact Hloading|].
  destruct Hcases as [(u & _ & Hu & _ & _ & -> & -> & _)|(_ & _ & _ & Hnot)].
  - vm_compute in Hu. injection Hu as <-. split; reflexivity.
  - exfalso. apply Hnot. exists alice. repeat split; vm_compute; reflexivity.
Defined.

(** A signup with a five-character password stops at the form. *)
Lemma handleSignup_invalid_form_witness :
  handleSignup JSON.stringify sample_trim sample_toLowerCase String.length
    sample_email_test "carol" "carol@example.com" "12345"
    (mkSignupView (mkSignupErrors "" "" "") false None) initialState fresh_install
  = (Normal (mkSignupView
               (mkSignupErrors "" "" "Password must be at least 6 characters")
               false None, initialState),
     fresh_install).
Proof.
  apply (handleSignup_invalid_form JSON.stringify sample_trim sample_toLowerCase
           String.length sample_email_test "carol" "carol@example.com" "12345").
  reflexivity.
Defined.

(** A valid signup on a fresh install. *)
Lemma handleSignup_outcome_witness :
  exists view' ctx' w',
    handleSignup JSON.stringify sample_trim sample_toLowerCase String.length
      sample_email_test " Carol " "Carol@Example.com" "123456"
      (mkSignupView (mkSignupErrors "" "" "") false None) initialState fresh_install
    = (Normal (view', ctx'), w')
    /\ signup_loading view' = false
    /\ signup_alert view' = Some ("Success", "Account created successfully!")
    /\ ctx' = setUserData (user_object "Carol" "carol@example.com" "123456") initialState.
Proof.
  destruct (handleSignup_outcome JSON.stringify sample_trim sample_toLowerCase
              String.length sample_email_test " Carol " "Carol@Example.com" "123456"
              (mkSignupView (mkSignupErrors "" "" "") false None) initialState
              fresh_install eq_refl)
    as (view' & ctx' & w' & Hrun & Hloading & Hcases).
  exists view', ctx', w'. split; [exact Hrun|]. split; [exact Hloading|].
  destruct Hcases as [(Halert & Hctx & _)|(Halert & _)].
  - split; [exact Halert|exact Hctx].
  - exfalso. vm_compute in Hrun. injection Hrun as <- _ _.
    discriminate Halert.
Defined.

(** Carol signs up and then logs in with her email in another case. *)
Lemma signup_screen_then_login_screen_witness :
  fst ((await signed <-
          handleSignup JSON.stringify sample_trim sample_toLowerCase String.length
            sample_email_test " Carol " "Carol@Example.com" "123456"
            (mkSignupView (mkSignupErrors "" "" "") false None) initialState;
        handleLogin JSON.parse sample_trim sample_toLowerCase
          "CAROL@example.com " "123456" (mkLoginView "" false) (snd signed) ["Login"])
         fresh_install)
  = Normal (mkLoginView "" false,
            setUserData (user_object "Carol" "carol@example.com" "123456")
              (setUserData (user_object "Carol" "carol@example.com" "123456")
                 initialState),
            ["Home"]).
Proof.
  apply (signup_screen_then_login_screen JSON.stringify JSON.parse
           sample_trim sample_toLowerCase String.length sample_email_test
           JSONFacts.parse_stringify JSONFacts.parse_empty
           " Carol " "Carol@Example.com" "123456" "CAROL@example.com " "123456");
    try reflexivity; vm_compute; discriminate.
Defined.
